(** * omnisound: notes, note sequences, meters and measures

    A shallow embedding of the note-storage and measure code of the
    repository, and the properties of its specification proved (or refuted)
    on it.

    - [Aleatoric]      embeds [aleatoric/measure.py]: the [NoteDur]
                       enumeration and [Meter.quantize]; with them
                       [CSoundNote.get_pitch_for_key] of [csound_note.py].
    - [Sequence]       embeds [omnisound/note/containers/note_sequence.py].
    - [Measures]       embeds [omnisound/note/containers/measure.py], on the
                       parent class of [Sequence].
    - [Players]        embeds the hooks of [aleatoric/player.py].

    Numbers.  Python [int] is [Z].  The Python [float] values of notes,
    meters and measures are modelled by exact rationals [Q]: every literal
    of the sources is a decimal and is read at its exact value, comparisons
    are comparisons of values, and the arithmetic of the concrete runs
    below is on dyadic values, on which binary floating point arithmetic is
    exact as well.  The pitches of [get_pitch_for_key] are binary64
    floating point numbers, as in Python. *)

From Stdlib Require Import ZArith QArith Qabs Lia List Bool.
From Stdlib Require Import Strings.String.
From Stdlib Require PrimFloat Uint63.
From stdpp Require Import base list.

Local Open Scope Z_scope.
Local Set Warnings "-register-all".
Local Set Warnings "-inexact-float".

(** ** Exceptions and results *)

(** The exceptions the embedded code raises, by Python class name.
    [ReferenceError] stands for a reference to an object that is not in the
    store: Python cannot produce one, and the model reports it rather than
    reading a default value.  The last three are the failures the
    specification names for the operations of a note sequence. *)
Inductive exn : Type :=
| ValueError
| TypeError
| IndexError
| AttributeError
| ZeroDivisionError
| ReferenceError
| NoteSequenceInvalidAppendException
| SchemaMismatchError
| IndexOutOfRangeError
| NotFoundError.

(** What a call produces: a value, or a raised exception. *)
Inductive result (A : Type) : Type :=
| Ok (a : A)
| Raise (e : exn).

Arguments Ok {A} a.
Arguments Raise {A} e.

(** A computation over a mutable state [S]: the state survives a raised
    exception, as the fields of a Python object do. *)
Definition M (S A : Type) : Type := S -> S * result A.

Definition ret {S A} (a : A) : M S A := fun s => (s, Ok a).
Definition raise {S A} (e : exn) : M S A := fun s => (s, Raise e).
Definition bind {S A B} (c : M S A) (k : A -> M S B) : M S B :=
  fun s => match c s with
           | (s', Ok a) => k a s'
           | (s', Raise e) => (s', Raise e)
           end.
Definition get {S} : M S S := fun s => (s, Ok s).
Definition gets {S A} (f : S -> A) : M S A := fun s => (s, Ok (f s)).
Definition modify {S} (f : S -> S) : M S unit := fun s => (f s, Ok tt).

Notation "'let+' x ':=' c 'in' k" := (bind c (fun x => k))
  (at level 10, x name, c at level 100, k at level 200).

(** A result that needs no state. *)
Definition lift {S A} (r : result A) : M S A := fun s => (s, r).

(** A computation on one of two objects, run on the pair of them. *)
Definition on_self {S X A} (c : M S A) : M (S * X) A :=
  fun sx => let '(s', r) := c (fst sx) in ((s', snd sx), r).
Definition on_arg {S X A} (c : M X A) : M (S * X) A :=
  fun sx => let '(x', r) := c (snd sx) in ((fst sx, x'), r).

(** [for x in l: body(x)] *)
Fixpoint for_each {S A} (body : A -> M S unit) (l : list A) : M S unit :=
  match l with
  | [] => ret tt
  | x :: l' => let+ _ := body x in for_each body l'
  end.

(** [[f(x) for x in l]] *)
Fixpoint comprehension {S A B} (f : A -> M S B) (l : list A) : M S (list B) :=
  match l with
  | [] => ret []
  | x :: l' => let+ y := f x in let+ ys := comprehension f l' in ret (y :: ys)
  end.

(** Python's [sum]: a left fold of [+] from [0]. *)
Definition sum (l : list Q) : Q := fold_left Qplus l 0%Q.

(** Python comparisons on numbers. *)
Definition Qgtb (x y : Q) : bool := negb (Qle_bool x y).

(** A computation with a loop in it, run on fuel: [None] when the fuel
    runs out before the loop has ended. *)
Definition MP (S A : Type) : Type := S -> option (S * result A).

Definition retP {S A} (a : A) : MP S A := fun s => Some (s, Ok a).
Definition bindP {S A B} (c : MP S A) (k : A -> MP S B) : MP S B :=
  fun s => match c s with
           | Some (s', Ok a) => k a s'
           | Some (s', Raise e) => Some (s', Raise e)
           | None => None
           end.

(** A computation without a loop ends. *)
Definition ended {S A} (c : M S A) : MP S A := fun s => Some (c s).

Definition on_selfP {S X A} (c : MP S A) : MP (S * X) A :=
  fun sx => match c (fst sx) with
            | Some (s', r) => Some ((s', snd sx), r)
            | None => None
            end.

Notation "'let*' x ':=' c 'in' k" := (bindP c (fun x => k))
  (at level 10, x name, c at level 100, k at level 200).

(** * aleatoric/measure.py *)

Module Aleatoric.

(** ** [class NoteDur(Enum)]

    The seven members carry the values written in the class body; every
    other name of the class ([WHL], [WHOLE], ...) is bound to the value of
    one of them and so is an alias of that member. *)
Inductive NoteDur : Type :=
| _1_0
| _0_5
| _0_25
| _0_125
| _0_00625
| _0_0003125
| _0_000015625.

Definition value (d : NoteDur) : Q :=
  match d with
  | _1_0 => 1.0
  | _0_5 => 0.5
  | _0_25 => 0.25
  | _0_125 => 0.125
  | _0_00625 => 0.00625
  | _0_0003125 => 0.0003125
  | _0_000015625 => 0.000015625
  end%Q.

Definition WHL := _1_0.
Definition WHOLE := _1_0.
Definition HLF := _0_5.
Definition HALF := _0_5.
Definition QRTR := _0_25.
Definition QUARTER := _0_25.
Definition EITH := _0_125.
Definition EIGHTH := _0_125.
Definition SXTNTH := _0_00625.
Definition SIXTEENTH := _0_00625.
Definition THRTYSCND := _0_0003125.
Definition THIRTYSECOND := _0_0003125.
Definition SXTYFRTH := _0_000015625.
Definition SIXTYFOURTH := _0_000015625.

(** [1 / 2^k], the duration of the note that divides a whole note [k]
    times. *)
Definition pow2_fraction (k : Z) : Q := (1 / inject_Z (2 ^ k))%Q.

(** ** Notes and sequences of notes

    [aleatoric.note] is not among the sources.  [quantize] uses a note
    through its attributes [start], [dur] and [duration] ([dur] and
    [duration] are two properties over the one field [_duration] of
    [CSoundNote]) and a sequence through its [note_list].  Notes are Python
    objects: they live in a store and a [note_list] holds references. *)
Record Note : Type := mkNote {
  instrument : Z;
  start : Q;
  duration : Q;
  amplitude : Z;
  pitch : Q
}.

Definition dur (n : Note) : Q := duration n.

Abbreviation addr := nat (only parsing).
Abbreviation store := (list Note) (only parsing).

Record NoteSequence : Type := mkNoteSequence { note_list : list addr }.

Definition alloc (n : Note) : M store addr :=
  fun st => (st ++ [n], Ok (length st)).

Definition read (a : addr) : M store Note :=
  fun st => match st !! a with
            | Some n => (st, Ok n)
            | None => (st, Raise ReferenceError)
            end.

Definition write (a : addr) (n : Note) : M store unit :=
  fun st => match st !! a with
            | Some _ => (<[a := n]> st, Ok tt)
            | None => (st, Raise ReferenceError)
            end.

(** [note.start = v] and [note.duration = v] *)
Definition set_start (a : addr) (v : Q) : M store unit :=
  let+ n := read a in
  write a (mkNote (instrument n) v (duration n) (amplitude n) (pitch n)).

Definition set_duration (a : addr) (v : Q) : M store unit :=
  let+ n := read a in
  write a (mkNote (instrument n) (start n) v (amplitude n) (pitch n)).

(** Modelled from the spec: [NoteSequence.dup], which [quantize] calls and
    which is missing from the sources.  The spec has [quantize] "operate on
    a copy of the input sequence, leaving the original untouched": [dup]
    builds a new sequence of new notes, one per note of the source and in
    its order, each with the attribute values of the note it copies. *)
Definition dup (source : NoteSequence) : M store NoteSequence :=
  let+ new_note_list :=
    comprehension (fun a => let+ n := read a in alloc n) (note_list source) in
  ret (mkNoteSequence new_note_list).

(** ** [class Meter] *)
Record Meter : Type := mkMeter {
  beats_per_measure : Z;
  beat_length : NoteDur;
  quantizing : bool
}.

Definition DEFAULT_QUANTIZING : bool := true.

(** [Meter.__init__]; [_validate] checks the types of its two arguments
    only, which the types of the model do already. *)
Definition Meter_init (beats_per_measure : Z) (beat_length : NoteDur)
    (quantizing : option bool) : Meter :=
  mkMeter beats_per_measure beat_length
          (match quantizing with
           | None => DEFAULT_QUANTIZING
           | Some q => q
           end).

Definition is_quantizing (self : Meter) : bool := quantizing self.
Definition quantizing_on (self : Meter) : Meter :=
  mkMeter (beats_per_measure self) (beat_length self) true.
Definition quantizing_off (self : Meter) : Meter :=
  mkMeter (beats_per_measure self) (beat_length self) false.

(** Python's [/] raises on a zero divisor. *)
Definition div {S} (x y : Q) : M S Q :=
  if Qeq_bool y 0 then raise ZeroDivisionError else ret (x / y)%Q.

(** The body of the loop of [quantize] on one note of the copy. *)
Definition quantize_note (note_adj_factor : Q) (note : addr) : M store unit :=
  let+ n := read note in
  let new_duration := (duration n * note_adj_factor)%Q in
  let+ _ := (if Qgtb (start n) 0.0
             then set_start note (start n + (new_duration - duration n))%Q
             else ret tt) in
  set_duration note new_duration.

(** [Meter.quantize].  Python returns [None] on every path and drops the
    copy it has built; the model returns that copy ([new_note_sequence],
    [None] when none was built) so that its notes can be spoken about. *)
Definition quantize (self : Meter) (note_sequence : NoteSequence)
    (measure_duration : Q) : M store (option NoteSequence) :=
  if quantizing self then
    let+ durs := comprehension (fun a => let+ n := read a in ret (dur n))
                               (note_list note_sequence) in
    let notes_duration := sum durs in
    if Qeq_bool notes_duration measure_duration then ret None
    else
      let+ note_adj_factor := div measure_duration notes_duration in
      let+ new_note_sequence := dup note_sequence in
      let+ _ := for_each (quantize_note note_adj_factor)
                         (note_list new_note_sequence) in
      ret (Some new_note_sequence)
  else ret None.

(** The notes a list of references denotes in a store. *)
Fixpoint notes_of (st : store) (l : list addr) : option (list Note) :=
  match l with
  | [] => Some []
  | a :: l' =>
      match st !! a, notes_of st l' with
      | Some n, Some ns => Some (n :: ns)
      | _, _ => None
      end
  end.

(** What the claim says [quantize] does to one note, in the spec's words:
    the new duration is [duration * factor]; a start greater than 0 moves
    by the change of the duration, any other start stays. *)
Definition rescaled (factor : Q) (n : Note) : Note :=
  let new_duration := (duration n * factor)%Q in
  mkNote (instrument n)
         (if Qgtb (start n) 0 then (start n + (new_duration - duration n))%Q
          else start n)
         new_duration (amplitude n) (pitch n).

(** The run of the spec's quantize example: four notes of duration 0.5 at
    starts 0.0, 0.25, 0.5 and 0.75. *)
Definition example_note (s : Q) : Note := mkNote 1 s 0.5 1 10.1.
Definition example_store : store :=
  map example_note [0.0; 0.25; 0.5; 0.75]%Q.
Definition example_sequence : NoteSequence := mkNoteSequence [0; 1; 2; 3]%nat.
Definition example_meter : Meter := Meter_init 4 QUARTER None.

(** ** aleatoric/note/adapters/csound_note.py: [CSoundNote.get_pitch_for_key]

    The enumerations [MajorKey] and [MinorKey] are not among the sources;
    their members are taken to be the keys [PITCH_MAP] lists. *)
Module MajorKey.
Inductive t : Type :=
| C | C_s | D_f | D | E_f | E | F | F_s | G_f | G | A_f | A | B_f | B | C_f.
End MajorKey.

Module MinorKey.
Inductive t : Type :=
| C | C_S | D | D_S | E_F | E | E_S | F | F_S | G | A_F | A | A_S | B_F | B.
End MinorKey.

Inductive key : Type :=
| major (k : MajorKey.t)
| minor (k : MinorKey.t).

(** The pitches are floating point numbers. *)
Import PrimFloat.

Definition PITCH_MAP (k : key) : float :=
  match k with
  | major MajorKey.C => 1.01
  | major MajorKey.C_s => 1.02
  | major MajorKey.D_f => 1.02
  | major MajorKey.D => 1.03
  | major MajorKey.E_f => 1.04
  | major MajorKey.E => 1.05
  | major MajorKey.F => 1.06
  | major MajorKey.F_s => 1.07
  | major MajorKey.G_f => 1.07
  | major MajorKey.G => 1.08
  | major MajorKey.A_f => 1.09
  | major MajorKey.A => 1.10
  | major MajorKey.B_f => 1.11
  | major MajorKey.B => 1.12
  | major MajorKey.C_f => 1.12
  | minor MinorKey.C => 1.01
  | minor MinorKey.C_S => 1.02
  | minor MinorKey.D => 1.03
  | minor MinorKey.D_S => 1.04
  | minor MinorKey.E_F => 1.04
  | minor MinorKey.E => 1.05
  | minor MinorKey.E_S => 1.06
  | minor MinorKey.F => 1.06
  | minor MinorKey.F_S => 1.07
  | minor MinorKey.G => 1.08
  | minor MinorKey.A_F => 1.09
  | minor MinorKey.A => 1.10
  | minor MinorKey.A_S => 1.11
  | minor MinorKey.B_F => 1.11
  | minor MinorKey.B => 1.12
  end%float.

Definition MIN_OCTAVE : Z := 1.
Definition MAX_OCTAVE : Z := 12.

(** [float(octave)], for an [int] in the range of [Uint63]. *)
Definition float_of_int (i : Z) : float := of_uint63 (Uint63.of_Z i).

Definition get_pitch_for_key (k : key) (octave : Z) : result float :=
  if negb ((MIN_OCTAVE <? octave) && (octave <? MAX_OCTAVE))
  then Raise ValueError
  else Ok (PITCH_MAP k + (float_of_int octave - 1.0))%float.

End Aleatoric.

(** * omnisound/note/containers/note_sequence.py *)

Module Sequence.

(** ** The array of attribute values

    [np.array(rows)] on a list of rows of equal length is an array of rank
    2, and the empty array of rank 1, of shape [(0,)], when there is no
    row. *)
Inductive ndarray : Type :=
| NoRows
| Rows (ncols : nat) (rows : list (list Q)).

Definition shape (a : ndarray) : list nat :=
  match a with
  | NoRows => [0%nat]
  | Rows ncols rows => [length rows; ncols]
  end.

(** [len(a)]: the first dimension. *)
Definition len (a : ndarray) : Z :=
  match a with
  | NoRows => 0
  | Rows _ rows => Z.of_nat (length rows)
  end.

Definition rows_of (a : ndarray) : list (list Q) :=
  match a with
  | NoRows => []
  | Rows _ rows => rows
  end.

(** [np.array([[0.0] * num_attributes for _ in range(num_notes)])] *)
Definition zero_rows (num_notes num_attributes : Z) : ndarray :=
  match Z.to_nat num_notes with
  | O => NoRows
  | n => Rows (Z.to_nat num_attributes)
              (repeat (repeat 0%Q (Z.to_nat num_attributes)) n)
  end.

(** [a[index]]: the view of one row; a negative index counts from the end. *)
Definition getitem (a : ndarray) (index : Z) : result nat :=
  if (0 <=? index) && (index <? len a) then Ok (Z.to_nat index)
  else if (- len a <=? index) && (index <? 0) then Ok (Z.to_nat (len a + index))
  else Raise IndexError.

(** ** Notes

    [note_cls] is an argument of the sequence.  A note is what [note_cls]
    is called on: for [attrs] either the view of a row of an array or,
    where the code passes one, what indexing a child sequence returned. *)
Inductive Note : Type :=
| note_cls (attrs : attrs_arg)
           (attr_name_index_map : list (string * Z))
           (default_attr_vals_map : option (list (string * Q)))
           (row_num : Z)
with attrs_arg : Type :=
| row_view (array : ndarray) (row : nat)
| indexed (item : option Note).

(** ** [class NoteSequence]

    [_range_map] is [None] while the attribute has not been assigned.  A
    Python [dict] keeps its keys in the order of their first insertion: it
    is a list of pairs. *)
Inductive NoteSequence : Type := mkNoteSequence {
  note_attrs : ndarray;
  attr_name_index_map : list (string * Z);
  default_attr_vals_map : option (list (string * Q));
  child_sequences : option (list NoteSequence);
  index : Z;
  max_index : Z;
  _range_map_index : Z;
  _range_map : option (list (Z * NoteSequence))
}.

(** [d[k] = v] *)
Fixpoint dict_set {V} (d : list (Z * V)) (k : Z) (v : V) : list (Z * V) :=
  match d with
  | [] => [(k, v)]
  | (k', v') :: d' =>
      if k' =? k then (k', v) :: d' else (k', v') :: dict_set d' k v
  end.

(** [list(d.keys())[-1]] *)
Definition last_key {V} (d : list (Z * V)) : result Z :=
  match last (map fst d) with
  | Some k => Ok k
  | None => Raise IndexError
  end.

(** [__len__] *)
Definition __len__ (self : NoteSequence) : Z := max_index self.

(** [l.insert(i, x)] *)
Definition list_insert_at {A} (i : nat) (x : A) (l : list A) : list A :=
  take i l ++ x :: drop i l.

(** The [while] loop of [_update_range_map]; [None] when [fuel] runs out. *)
Fixpoint process_queue (fuel : nat) (child_seqs_queue : list NoteSequence)
    (range_map : list (Z * NoteSequence))
    : option (result (list (Z * NoteSequence))) :=
  match child_seqs_queue with
  | [] => Some (Ok range_map)
  | cur_seq :: _ =>
      match fuel with
      | O => None
      | S fuel' =>
          match last_key range_map with
          | Raise e => Some (Raise e)
          | Ok k =>
              let range_map' := dict_set range_map (k + __len__ cur_seq) cur_seq in
              match child_sequences cur_seq with
              | None => Some (Raise TypeError)
              | Some children =>
                  let queue' :=
                    fold_left (fun q child_seq => list_insert_at 1 child_seq q)
                              (rev children) child_seqs_queue in
                  process_queue fuel' (drop 1 queue') range_map'
              end
          end
      end
  end.

(** The number of sequences in a tree and in a queue of trees: the
    iterations the loop needs. *)
Fixpoint tree_size (s : NoteSequence) : nat :=
  S (match child_sequences s with
     | None => 0
     | Some children =>
         (fix forest (l : list NoteSequence) : nat :=
            match l with
            | [] => 0
            | c :: l' => tree_size c + forest l'
            end) children
     end)%nat.

Definition forest_size (l : list NoteSequence) : nat :=
  fold_right (fun c n => (tree_size c + n)%nat) 0%nat l.

(** [_update_range_map]: the new values of [_range_map] and [max_index],
    in a sequence whose other fields are [self]'s.  The loop runs on as
    much fuel as the queue has sequences, which is enough
    ([_update_range_map_returns] below). *)
Definition _update_range_map (self : NoteSequence)
    : option (result NoteSequence) :=
  match child_sequences self with
  | Some (first_child :: others) =>
      let range_map :=
        [(len (note_attrs self) + __len__ first_child, first_child)] in
      let child_seqs_queue := first_child :: others in
      match process_queue (forest_size child_seqs_queue) child_seqs_queue
                          range_map with
      | None => None
      | Some (Raise e) => Some (Raise e)
      | Some (Ok range_map') =>
          match last_key range_map' with
          | Raise e => Some (Raise e)
          | Ok k =>
              Some (Ok (mkNoteSequence (note_attrs self)
                          (attr_name_index_map self)
                          (default_attr_vals_map self) (child_sequences self)
                          (index self) k (_range_map_index self)
                          (Some range_map')))
          end
      end
  | _ => Some (Ok self)
  end.

(** [__init__] *)
Definition __init__ (num_notes num_attributes : Z)
    (attr_name_index_map : list (string * Z))
    (default_attr_vals_map : option (list (string * Q)))
    (child_sequences : option (list NoteSequence))
    : option (result NoteSequence) :=
  _update_range_map
    (mkNoteSequence (zero_rows num_notes num_attributes) attr_name_index_map
       default_attr_vals_map child_sequences 0 0 0 None).

(** [_get_note_for_index] and [__getitem__]; [Ok None] is Python's [None],
    returned when the loop over the range map ends without a match. *)
Fixpoint _get_note_for_index (self : NoteSequence) (index : Z) {struct self}
    : result (option Note) :=
  if index >=? max_index self then Raise ValueError
  else if index <? len (note_attrs self) then
    match getitem (note_attrs self) index with
    | Raise e => Raise e
    | Ok row =>
        Ok (Some (note_cls (row_view (note_attrs self) row)
                    (attr_name_index_map self) (default_attr_vals_map self) index))
    end
  else
    match _range_map self with
    | None => Raise AttributeError
    | Some range_map =>
        (fix scan (d : list (Z * NoteSequence)) (index_range_sum : Z)
           : result (option Note) :=
           match d with
           | [] => Ok None
           | (index_range, note_attrs') :: d' =>
               if index <? index_range then
                 let adjusted_index := index - index_range_sum in
                 match _get_note_for_index note_attrs' adjusted_index with
                 | Raise e => Raise e
                 | Ok item =>
                     Ok (Some (note_cls (indexed item) (attr_name_index_map self)
                                 (default_attr_vals_map self) index))
                 end
               else scan d' (index_range_sum + index_range)
           end) range_map (len (note_attrs self))
    end.

Definition __getitem__ (self : NoteSequence) (index : Z) : result (option Note) :=
  _get_note_for_index self index.

(** [append].  The note enters through the rank-1 array it keeps under
    [_attrs].  Past the comparison of the two shapes the body calls the
    method [ndarray.resize] on the array itself and an integer, which is
    no shape, and assigns its result, which is [None] whatever the
    arguments: that path ends in a [TypeError]. *)
Definition append (self : NoteSequence) (_attrs : list Q)
    : result NoteSequence :=
  if bool_decide (shape (note_attrs self) <> [length _attrs])
  then Raise NoteSequenceInvalidAppendException
  else Raise TypeError.

(** [append_child_sequence]; [None] has no [append]. *)
Definition append_child_sequence (self child_sequence : NoteSequence)
    : result NoteSequence :=
  match child_sequences self with
  | None => Raise AttributeError
  | Some children =>
      Ok (mkNoteSequence (note_attrs self) (attr_name_index_map self)
            (default_attr_vals_map self) (Some (children ++ [child_sequence]))
            (index self) (max_index self) (_range_map_index self)
            (_range_map self))
  end.

(** The number of rows of a sequence and of all the sequences below it:
    the flattened length the specification gives [len]. *)
Fixpoint flattened_rows (s : NoteSequence) : Z :=
  len (note_attrs s) +
  match child_sequences s with
  | None => 0
  | Some children =>
      (fix total (l : list NoteSequence) : Z :=
         match l with
         | [] => 0
         | c :: l' => flattened_rows c + total l'
         end) children
  end.

(** ** Example values *)

(** The sequences of the example in the comment of [_update_range_map]:
    "This NoteSeq has 10 notes and it has two children, the first has 11
    and the second has 12". *)
Definition leaf (num_notes : Z) : NoteSequence :=
  mkNoteSequence (zero_rows num_notes 5) [] None (Some []) 0 0 0 None.

(** Two rows and one child, as [__init__] builds it. *)
Definition two_rows_one_child : NoteSequence :=
  mkNoteSequence (zero_rows 2 5) [] None (Some [leaf 3]) 0 2 0
                 (Some [(2, leaf 3)]).

(** ** The rest of the class *)

(** [np.concatenate((a, b))], along the first axis: the arrays have to
    agree in rank and in width. *)
Definition concatenate (a b : ndarray) : result ndarray :=
  match a, b with
  | NoRows, NoRows => Ok NoRows
  | Rows c rows, Rows c' rows' =>
      if decide (c = c') then Ok (Rows c (rows ++ rows')) else Raise ValueError
  | _, _ => Raise ValueError
  end.

Definition set_note_attrs (self : NoteSequence) (a : ndarray) : NoteSequence :=
  mkNoteSequence a (attr_name_index_map self) (default_attr_vals_map self)
    (child_sequences self) (index self) (max_index self)
    (_range_map_index self) (_range_map self).

Definition set_index (self : NoteSequence) (i : Z) : NoteSequence :=
  mkNoteSequence (note_attrs self) (attr_name_index_map self)
    (default_attr_vals_map self) (child_sequences self) i (max_index self)
    (_range_map_index self) (_range_map self).

(** [extend] *)
Definition extend (self note_sequence : NoteSequence) : result NoteSequence :=
  if bool_decide (shape (note_attrs self) <> shape (note_attrs note_sequence))
  then Raise NoteSequenceInvalidAppendException
  else
    match concatenate (note_attrs self) (note_attrs note_sequence) with
    | Ok a => Ok (set_note_attrs self a)
    | Raise e => Raise e
    end.

(** [__iter__] and [__next__].  What a call of [__next__] gives: a note,
    the end of the iteration, or another exception. *)
Definition __iter__ (self : NoteSequence) : NoteSequence := set_index self 0.

Inductive next_result : Type :=
| Yield (note : option Note)
| StopIteration
| Raised (e : exn).

Definition __next__ (self : NoteSequence) : NoteSequence * next_result :=
  if index self =? max_index self then (self, StopIteration)
  else
    match _get_note_for_index self (index self) with
    | Raise e => (self, Raised e)
    | Ok note => (set_index self (index self + 1), Yield note)
    end.

(** [for note in self], collecting the notes: [__iter__] once, then
    [__next__] until [StopIteration]; [None] when [fuel] runs out. *)
Fixpoint next_until_stop (fuel : nat) (self : NoteSequence)
    : option (NoteSequence * result (list (option Note))) :=
  match fuel with
  | O => None
  | S fuel' =>
      match __next__ self with
      | (self', StopIteration) => Some (self', Ok [])
      | (self', Raised e) => Some (self', Raise e)
      | (self', Yield note) =>
          match next_until_stop fuel' self' with
          | Some (self'', Ok notes) => Some (self'', Ok (note :: notes))
          | other => other
          end
      end
  end.

Definition for_in (fuel : nat) (self : NoteSequence)
    : option (NoteSequence * result (list (option Note))) :=
  next_until_stop fuel (__iter__ self).

(** [make_notes] *)
Definition make_notes (self : NoteSequence) : list Note :=
  imap (fun (i : nat) (_ : list Q) =>
          note_cls (row_view (note_attrs self) i) (attr_name_index_map self)
                   (default_attr_vals_map self) (Z.of_nat i))
       (rows_of (note_attrs self)).

(** Every sequence of a tree has a list of child sequences (not [None])
    and a length that is not negative. *)
Fixpoint listed (s : NoteSequence) : bool :=
  match child_sequences s with
  | None => false
  | Some children => forallb listed children
  end.

Fixpoint lengths_sound (s : NoteSequence) : bool :=
  (0 <=? max_index s) &&
  match child_sequences s with
  | None => true
  | Some children => forallb lengths_sound children
  end.

(** The lengths of the sequences of a tree, added up. *)
Fixpoint tree_len (s : NoteSequence) : Z :=
  __len__ s +
  match child_sequences s with
  | None => 0
  | Some children =>
      (fix total (l : list NoteSequence) : Z :=
         match l with
         | [] => 0
         | c :: l' => tree_len c + total l'
         end) children
  end.

Definition forest_len (l : list NoteSequence) : Z :=
  fold_right (fun c n => tree_len c + n) 0 l.

(** The last key of the range map is [K], and no key is above it. *)
Definition ends_at {V} (d : list (Z * V)) (K : Z) : Prop :=
  last (map fst d) = Some K /\ forall k, k ∈ map fst d -> k <= K.

(** The note indexing gives for one of the own rows. *)
Definition own_note (self : NoteSequence) (i : nat) : Note :=
  note_cls (row_view (note_attrs self) i) (attr_name_index_map self)
           (default_attr_vals_map self) (Z.of_nat i).

End Sequence.

(** * omnisound/note/containers/measure.py *)

Module Measures.

(** ** What [measure.py] stands on

    [class Measure(NoteSequence)] extends the class of [note_sequence.py],
    embedded in [Sequence]: what a measure inherits or calls through
    [super], its [len], its iteration and its indexing are the definitions
    of [Sequence].

    A note passed to a measure is an object of [class Note] of [note.py],
    which keeps its values in the rank-1 array [_attrs]: the note is that
    array.  [note.start] and [note.dur] go through [__getattr__] and
    [__setattr__] to the indices [BASE_ATTR_NAMES] gives the names. *)
Definition START : nat := 1.

(** Modelled from the spec: the constant [START_I], which [measure.py]
    imports from the module of the note and which is not defined there.
    "index-0 = instrument, index-1 = start, index-2 = duration". *)
Definition START_I : nat := 1.



(** [note.<name> = v] *)
Definition setattr (idx : nat) (v : Q) : M (list Q) unit :=
  fun _attrs => match _attrs !! idx with
                | Some _ => (<[idx := v]> _attrs, Ok tt)
                | None => (_attrs, Raise IndexError)
                end.

(** Modelled from the spec: the Meter of [omnisound.note.modifiers.meter],
    a module that is not among the sources, with the fields [measure.py]
    reads.  [beat_note_dur] is the value of the enumeration member, and
    [beat_start_times_secs] is "the ordered list of beat start times within
    one measure", which the meter derives and the measure only reads. *)
Record Meter : Type := mkMeter {
  beats_per_measure : Z;
  beat_note_dur : Q;
  beat_start_times_secs : list Q;
  quantizing : bool
}.

(** ** [class Measure(NoteSequence)]

    The fields of the parent are the [sequence]; [swing] and the
    performance attributes, which no operation below reads, are left out.
    The constructor of a measure takes no child sequences and passes none
    to the constructor of the parent, which then leaves [max_index], the
    length of the sequence, at 0. *)
Record Measure : Type := mkMeasure {
  sequence : Sequence.NoteSequence;
  meter : Meter;
  beat : Z;
  next_note_start : Q;
  max_duration : Q
}.

Definition set_sequence (m : Measure) (s : Sequence.NoteSequence) : Measure :=
  mkMeasure s (meter m) (beat m) (next_note_start m) (max_duration m).
Definition set_beat (m : Measure) (b : Z) : Measure :=
  mkMeasure (sequence m) (meter m) b (next_note_start m) (max_duration m).

(** A method of the parent class that returns [self], called on a measure:
    [super(Measure, self).<method>(...)]. *)
Definition super (method : Sequence.NoteSequence -> result Sequence.NoteSequence)
    : M Measure unit :=
  fun m => match method (sequence m) with
           | Ok s' => (set_sequence m s', Ok tt)
           | Raise e => (m, Raise e)
           end.


(** *** The beat *)

Definition reset_current_beat : M Measure unit :=
  modify (fun m => set_beat m 0).

Definition increment_beat : M Measure unit :=
  modify (fun m => set_beat m (Z.min (beat m + 1) (beats_per_measure (meter m)))).

Definition decrement_beat : M Measure unit :=
  modify (fun m => set_beat m (Z.max 0 (beat m - 1))).

(** A call of one of the two, and a sequence of such calls. *)
Inductive beat_call : Type :=
| Increment
| Decrement.

Definition call_beat (c : beat_call) : M Measure unit :=
  match c with
  | Increment => increment_beat
  | Decrement => decrement_beat
  end.

(** [l[i]] on a Python list; a negative index counts from the end. *)
Definition list_getitem {S A} (l : list A) (i : Z) : M S A :=
  let n := Z.of_nat (length l) in
  match (if 0 <=? i then l !! Z.to_nat i
         else if - n <=? i then l !! Z.to_nat (n + i) else None) with
  | Some x => ret x
  | None => raise IndexError
  end.

(** *** [_sort_notes_by_start_time] *)

(** [x[START_I]] for every [x], the keys [list.sort] computes first. *)
Fixpoint keyed (l : list (list Q)) : result (list (Q * list Q)) :=
  match l with
  | [] => Ok []
  | x :: l' =>
      match x !! START_I, keyed l' with
      | Some k, Ok kl => Ok ((k, x) :: kl)
      | None, _ => Raise IndexError
      | _, Raise e => Raise e
      end
  end.

(** [list.sort] is stable: an element stays before the later elements of
    the same key.  Insertion from the right end does that. *)
Fixpoint insert_by_key (x : Q * list Q) (l : list (Q * list Q))
    : list (Q * list Q) :=
  match l with
  | [] => [x]
  | y :: l' =>
      if Qle_bool (fst x) (fst y) then x :: y :: l'
      else y :: insert_by_key x l'
  end.

Definition sort_by_key (l : list (Q * list Q)) : list (Q * list Q) :=
  fold_right insert_by_key [] l.

(** [sorted_notes.sort(key=lambda x: x[START_I])] *)
Definition sort_notes (sorted_notes : list (list Q)) : result (list (list Q)) :=
  match keyed sorted_notes with
  | Ok kl => Ok (map snd (sort_by_key kl))
  | Raise e => Raise e
  end.

Section NoteClass.

(** The notes a sequence gives are objects of the class [note_cls] it was
    built with, which is an argument of the constructor.  What the measure
    calls on them is taken as given: [note.as_list()], and [note.start = v],
    which may write to the array of the sequence the note is a view of. *)
Variable as_list : option Sequence.Note -> result (list Q).
Variable set_start : option Sequence.Note -> Q -> M Sequence.NoteSequence unit.

(** [[note.as_list() for note in self]], past [__iter__]: [__next__] until
    it raises [StopIteration], and [as_list] on every note as it comes;
    [None] when [fuel] runs out. *)
Fixpoint as_lists (fuel : nat) (self : Sequence.NoteSequence)
    : option (Sequence.NoteSequence * result (list (list Q))) :=
  match fuel with
  | O => None
  | S fuel' =>
      match Sequence.__next__ self with
      | (self', Sequence.StopIteration) => Some (self', Ok [])
      | (self', Sequence.Raised e) => Some (self', Raise e)
      | (self', Sequence.Yield note) =>
          match as_list note with
          | Raise e => Some (self', Raise e)
          | Ok x =>
              match as_lists fuel' self' with
              | Some (self'', Ok xs) => Some (self'', Ok (x :: xs))
              | other => other
              end
          end
      end
  end.

(** The loops that write the sorted values back run once for every note
    the iteration gave.  The first of them reads
    [self.attr_name_idx_map]: the parent keeps the map it is given under
    [attr_name_index_map], and neither class assigns the other name. *)
Definition _sort_notes_by_start_time (fuel : nat) : MP Measure unit :=
  fun m =>
    match as_lists fuel (Sequence.__iter__ (sequence m)) with
    | None => None
    | Some (s, Raise e) => Some (set_sequence m s, Raise e)
    | Some (s, Ok sorted_notes) =>
        match sort_notes sorted_notes with
        | Raise e => Some (set_sequence m s, Raise e)
        | Ok [] => Some (set_sequence m s, Ok tt)
        | Ok (_ :: _) => Some (set_sequence m s, Raise AttributeError)
        end
    end.

(** *** The operations of the parent, wrapped *)

Definition append (fuel : nat) (note : list Q) : MP Measure unit :=
  let* _ := ended (super (fun self => Sequence.append self note)) in
  _sort_notes_by_start_time fuel.

Definition extend (fuel : nat) (to_add : Sequence.NoteSequence)
    : MP Measure unit :=
  let* _ := ended (super (fun self => Sequence.extend self to_add)) in
  _sort_notes_by_start_time fuel.

(** *** Notes on the beat *)

(** The state is the measure and the note passed to it, whose start the
    call writes. *)
Definition add_note_on_beat (fuel : nat) (increment_beat' : bool)
    : MP (Measure * list Q) unit :=
  let* m := ended (on_self get) in
  let* start := ended (list_getitem (beat_start_times_secs (meter m)) (beat m)) in
  let* _ := ended (on_arg (setattr START start)) in
  let* note := ended (on_arg get) in
  let* _ := on_selfP (append fuel note) in
  let* _ := on_selfP (_sort_notes_by_start_time fuel) in
  if increment_beat' then ended (on_self increment_beat) else retP tt.



(** *** Notes one after another *)


End NoteClass.

(** ** Example values *)

(** Four quarter-note beats at 240 quarter notes a minute: the meter of
    the tests. *)
Definition example_meter : Meter :=
  mkMeter 4 0.25 [0.0; 0.25; 0.5; 0.75]%Q true.

(** The note of the tests, at a given start. *)
Definition example_note (s : Q) : list Q := [1; s; 0.25; 100; 9.01]%Q.

(** A sequence without child sequences whose rows are the note of the
    tests at the given starts. *)
Definition example_sequence (starts : list Q) : Sequence.NoteSequence :=
  Sequence.mkNoteSequence
    (match starts with
     | [] => Sequence.NoRows
     | _ => Sequence.Rows 5 (map example_note starts)
     end) [] None None 0 0 0 None.

(** A measure over such rows, with a budget of one second. *)
Definition example_measure (starts : list Q) : Measure :=
  mkMeasure (example_sequence starts) example_meter 0 0 1.

(** A class of notes whose notes refuse both calls. *)
Definition no_as_list (note : option Sequence.Note) : result (list Q) :=
  Raise AttributeError.


End Measures.

(** * aleatoric/player.py *)

Module Players.

(** ** The hooks of [class Player]

    A hook is any object.  The code asks three things of it: its truth
    value, whether [dir] lists [__call__] for it, and, in [list.remove],
    whether it equals another. *)
Record hook : Type := mk_hook {
  ident : nat;
  truthy : bool;
  callable : bool
}.

#[global] Instance hook_eq_dec : EqDecision hook.
Proof. solve_decision. Defined.

(** A [dict] from names to hooks, in the order of insertion. *)
Fixpoint dict_set (d : list (string * hook)) (k : string) (v : hook)
    : list (string * hook) :=
  match d with
  | [] => [(k, v)]
  | (k', v') :: d' =>
      if String.eqb k' k then (k', v) :: d' else (k', v') :: dict_set d' k v
  end.

(** [d.get(k)] *)
Fixpoint dict_get (d : list (string * hook)) (k : string) : option hook :=
  match d with
  | [] => None
  | (k', v') :: d' => if String.eqb k' k then Some v' else dict_get d' k
  end.

(** [del d[k]], for a key of [d] *)
Fixpoint dict_del (d : list (string * hook)) (k : string)
    : list (string * hook) :=
  match d with
  | [] => []
  | (k', v') :: d' =>
      if String.eqb k' k then d' else (k', v') :: dict_del d' k
  end.

(** [l.remove(x)] takes the first element equal to [x] out of the list,
    and raises [ValueError] when there is none. *)
Fixpoint list_remove (x : hook) (l : list hook) : result (list hook) :=
  match l with
  | [] => Raise ValueError
  | y :: l' =>
      if decide (y = x) then Ok l'
      else match list_remove x l' with
           | Ok l'' => Ok (y :: l'')
           | Raise e => Raise e
           end
  end.

(** The two objects [_add_hook] and [_remove_hook] are passed: the [dict]
    of the hooks by name and the list of the hooks. *)
Record registry : Type := mk_registry {
  hooks : list (string * hook);
  hooks_list : list hook
}.

(** [_add_hook]; the name is a string. *)
Definition _add_hook (name : string) (hook' : hook) : M registry unit :=
  fun r =>
    if String.eqb name EmptyString || negb (truthy hook') || negb (callable hook')
    then (r, Raise ValueError)
    else (mk_registry (dict_set (hooks r) name hook') (hooks_list r ++ [hook']),
          Ok tt).

(** [_remove_hook] *)
Definition _remove_hook (name : string) : M registry unit :=
  fun r =>
    if String.eqb name EmptyString then (r, Raise ValueError)
    else
      match dict_get (hooks r) name with
      | Some hook' =>
          if truthy hook' then
            match list_remove hook' (hooks_list r) with
            | Ok l => (mk_registry (dict_del (hooks r) name) l, Ok tt)
            | Raise e => (r, Raise e)
            end
          else (r, Ok tt)
      | None => (r, Ok tt)
      end.

(** [class Player]: the hooks before and after playing. *)
Record Player : Type := mk_Player {
  pre_play : registry;
  post_play : registry
}.

Definition on_pre_play {A} (c : M registry A) : M Player A :=
  fun p => let '(r, a) := c (pre_play p) in (mk_Player r (post_play p), a).
Definition on_post_play {A} (c : M registry A) : M Player A :=
  fun p => let '(r, a) := c (post_play p) in (mk_Player (pre_play p) r, a).

Definition add_pre_play_hook (name : string) (hook' : hook) : M Player unit :=
  on_pre_play (_add_hook name hook').
Definition add_post_play_hook (name : string) (hook' : hook) : M Player unit :=
  on_post_play (_add_hook name hook').
Definition remove_pre_play_hook (name : string) : M Player unit :=
  on_pre_play (_remove_hook name).
Definition remove_post_play_hook (name : string) : M Player unit :=
  on_post_play (_remove_hook name).

(** A hook that can be registered. *)
Definition valid (name : string) (hook' : hook) : Prop :=
  name <> EmptyString /\ truthy hook' = true /\ callable hook' = true.

End Players.

(** * Facts *)

(** ** Comparisons and sums of numbers *)

Lemma Qgtb_true x y : Qgtb x y = true <-> (y < x)%Q.
Proof.
  unfold Qgtb. rewrite negb_true_iff, <- not_true_iff_false, Qle_bool_iff.
  split; [apply Qnot_le_lt | apply Qlt_not_le].
Qed.


Lemma Qeq_bool_false x y : Qeq_bool x y = false <-> ~ (x == y)%Q.
Proof.
  rewrite <- not_true_iff_false, Qeq_bool_iff. reflexivity.
Qed.

(** The literal [0.0] and [0] compare alike. *)
Lemma Qgtb_zero x : Qgtb x 0.0 = Qgtb x 0.
Proof.
  apply eq_true_iff_eq. rewrite !Qgtb_true.
  assert (H : (0.0 == 0)%Q) by reflexivity. by rewrite H.
Qed.

(** ** Running a computation *)

Lemma bind_ok {S A B} (c : M S A) (k : A -> M S B) s s' a :
  c s = (s', Ok a) -> bind c k s = k a s'.
Proof. intros H. unfold bind. by rewrite H. Qed.

Lemma bindP_ok {S A B} (c : MP S A) (k : A -> MP S B) s s' a :
  c s = Some (s', Ok a) -> bindP c k s = k a s'.
Proof. intros H. unfold bindP. by rewrite H. Qed.

Lemma bindP_raise {S A B} (c : MP S A) (k : A -> MP S B) s s' e :
  c s = Some (s', Raise e) -> bindP c k s = Some (s', Raise e).
Proof. intros H. unfold bindP. by rewrite H. Qed.

(** ** aleatoric/measure.py: [Meter.quantize] *)

Section AleatoricFacts.

Import Aleatoric.

Implicit Types (st : store) (l : list addr) (ns : list Note).

(** Allocation leaves the notes of the older references as they are. *)
Lemma notes_of_app st l ns fresh :
  notes_of st l = Some ns -> notes_of (st ++ fresh) l = Some ns.
Proof.
  revert ns. induction l as [|a l IH]; intros ns H; simpl in *; [done|].
  destruct (st !! a) as [n|] eqn:Ha; [|done].
  destruct (notes_of st l) as [ns'|]; [|done].
  rewrite (lookup_app_l_Some _ _ _ _ Ha), (IH ns' eq_refl). done.
Qed.

(** The references [dup] hands out denote the copies. *)
Lemma notes_of_fresh st ns :
  notes_of (st ++ ns) (seq (length st) (length ns)) = Some ns.
Proof.
  revert st. induction ns as [|n ns IH]; intros st; simpl; [done|].
  rewrite list_lookup_middle by done.
  specialize (IH (st ++ [n])). rewrite <- app_assoc, length_app in IH.
  simpl in IH. rewrite Nat.add_1_r in IH. by rewrite IH.
Qed.

(** [[note.dur for note in note_sequence.note_list]] *)
Lemma durations_read st l ns :
  notes_of st l = Some ns ->
  comprehension (fun a => let+ n := read a in ret (dur n)) l st
  = (st, Ok (map duration ns)).
Proof.
  revert ns. induction l as [|a l IH]; intros ns H; simpl in *.
  - by inversion H.
  - destruct (st !! a) as [n|] eqn:Ha; [|done].
    destruct (notes_of st l) as [ns'|]; [|done]. inversion H; subst.
    rewrite (bind_ok _ _ st st (duration n)).
    + by rewrite (bind_ok _ _ _ _ _ (IH ns' eq_refl)).
    + unfold bind, read. by rewrite Ha.
Qed.

(** [dup] allocates the copies after the store, in order. *)
Lemma dup_copies st l ns :
  notes_of st l = Some ns ->
  dup (mkNoteSequence l) st
  = (st ++ ns, Ok (mkNoteSequence (seq (length st) (length ns)))).
Proof.
  intros H.
  assert (Hc : comprehension (fun a => let+ n := read a in alloc n) l st
               = (st ++ ns, Ok (seq (length st) (length ns)))).
  { revert st ns H. induction l as [|a l IH]; intros st ns H; simpl in *.
    - inversion H. by rewrite app_nil_r.
    - destruct (st !! a) as [n|] eqn:Ha; [|done].
      destruct (notes_of st l) as [ns'|] eqn:Hl; [|done]. inversion H; subst.
      rewrite (bind_ok _ _ st (st ++ [n]) (length st)).
      + rewrite (bind_ok _ _ _ _ _ (IH (st ++ [n]) ns' (notes_of_app _ _ _ _ Hl))).
        rewrite <- app_assoc, length_app. simpl. by rewrite Nat.add_1_r.
      + unfold bind, read, alloc. by rewrite Ha. }
  unfold dup. cbn [note_list]. by rewrite (bind_ok _ _ _ _ _ Hc).
Qed.

(** One pass of the loop body on a note of the store. *)
Lemma quantize_note_rescales factor pre n post :
  quantize_note factor (length pre) (pre ++ n :: post)
  = (pre ++ rescaled factor n :: post, Ok tt).
Proof.
  unfold quantize_note, rescaled, set_start, set_duration, bind, read, write.
  rewrite list_lookup_middle by done. simpl.
  rewrite Qgtb_zero. destruct (Qgtb (start n) 0) eqn:Hs.
  - rewrite list_lookup_middle by done. simpl.
    rewrite list_lookup_middle by done. simpl.
    rewrite !insert_app_r_alt, !Nat.sub_diag by lia. simpl.
    rewrite list_lookup_middle by done. simpl.
    rewrite list_lookup_middle by done. simpl.
    by rewrite !insert_app_r_alt, !Nat.sub_diag by lia.
  - simpl. rewrite list_lookup_middle by done. simpl.
    rewrite list_lookup_middle by done. simpl.
    by rewrite !insert_app_r_alt, !Nat.sub_diag by lia.
Qed.

(** The loop over the copy rescales each of its notes. *)
Lemma quantize_loop factor pre ns :
  for_each (quantize_note factor) (seq (length pre) (length ns)) (pre ++ ns)
  = (pre ++ map (rescaled factor) ns, Ok tt).
Proof.
  revert pre. induction ns as [|n ns IH]; intros pre; simpl; [done|].
  unfold bind. rewrite quantize_note_rescales.
  specialize (IH (pre ++ [rescaled factor n])).
  rewrite length_app in IH. simpl in IH. rewrite Nat.add_1_r in IH.
  rewrite <- !app_assoc in IH. simpl in IH. by rewrite IH.
Qed.

(** The run of [quantize] that rescales. *)
Lemma quantize_rescaling self note_sequence measure_duration st ns :
  notes_of st (note_list note_sequence) = Some ns ->
  quantizing self = true ->
  ~ (sum (map duration ns) == measure_duration)%Q ->
  ~ (sum (map duration ns) == 0)%Q ->
  quantize self note_sequence measure_duration st
  = (st ++ map (rescaled (measure_duration / sum (map duration ns))) ns,
     Ok (Some (mkNoteSequence (seq (length st) (length ns))))).
Proof.
  intros Hns Hq Hne Hz. unfold quantize. rewrite Hq.
  rewrite (bind_ok _ _ _ _ _ (durations_read _ _ _ Hns)).
  apply Qeq_bool_false in Hne. rewrite Hne.
  unfold div. apply Qeq_bool_false in Hz. rewrite Hz.
  rewrite (bind_ok _ _ st st (measure_duration / sum (map duration ns))%Q) by done.
  destruct note_sequence as [l]. simpl in Hns.
  rewrite (bind_ok _ _ _ _ _ (dup_copies _ _ _ Hns)). simpl.
  by rewrite (bind_ok _ _ _ _ _ (quantize_loop _ _ _)).
Qed.

End AleatoricFacts.

Section AleatoricClaims.

Import Aleatoric.

(** C3, as stated, fails on the code.  On the four notes of the example no
    note of the store, original or copy, has duration 0.375 after the run;
    and a sequence whose durations sum to zero, which is no measure
    duration but 0, raises [ZeroDivisionError] where the claim has a factor
    computed. *)
Lemma quantize_example_counterexample :
  ~ (exists st' r n,
       quantize example_meter example_sequence 1.0 example_store = (st', r) /\
       n ∈ st' /\ (duration n == 0.375)%Q) /\
  quantize example_meter (mkNoteSequence []) 1.0 [] = ([], Raise ZeroDivisionError).
Proof.
  split; [|reflexivity].
  intros (st' & r & n & Hrun & Hin & Hd).
  vm_compute in Hrun. inversion Hrun; subst; clear Hrun.
  repeat (apply elem_of_cons in Hin as [->|Hin]; [by vm_compute in Hd|]).
  by apply elem_of_nil in Hin.
Qed.

(** C3 (amended).  With quantizing enabled and a sum of durations that is
    neither the measure duration nor zero, [quantize] computes
    [factor = measure_duration / sum(durations)] and builds a copy of the
    sequence in which every note, in the order of the originals, has the
    duration [duration * factor] and, when its start was greater than 0, the
    start [start + (new_duration - duration)], a start that was not keeping
    its value; the notes of the input stay as they were.  In particular four
    notes of duration 0.5 at starts 0.0, 0.25, 0.5 and 0.75, quantized
    against the measure duration 1.0, end in the copy with durations 0.25
    each and starts 0.0, 0.0, 0.25 and 0.5. *)
Theorem quantize_rescales_copy :
  (forall self note_sequence measure_duration st ns,
     notes_of st (note_list note_sequence) = Some ns ->
     quantizing self = true ->
     ~ (sum (map duration ns) == measure_duration)%Q ->
     ~ (sum (map duration ns) == 0)%Q ->
     exists st' new_note_sequence,
       quantize self note_sequence measure_duration st
       = (st', Ok (Some new_note_sequence)) /\
       notes_of st' (note_list new_note_sequence)
       = Some (map (rescaled (measure_duration / sum (map duration ns))) ns) /\
       notes_of st' (note_list note_sequence) = Some ns) /\
  (exists st' new_note_sequence ns',
     quantize example_meter example_sequence 1.0 example_store
     = (st', Ok (Some new_note_sequence)) /\
     notes_of st' (note_list new_note_sequence) = Some ns' /\
     Forall2 Qeq (map duration ns') [0.25; 0.25; 0.25; 0.25]%Q /\
     Forall2 Qeq (map start ns') [0.0; 0.0; 0.25; 0.5]%Q).
Proof.
  assert (General : forall self note_sequence measure_duration st ns,
     notes_of st (note_list note_sequence) = Some ns ->
     quantizing self = true ->
     ~ (sum (map duration ns) == measure_duration)%Q ->
     ~ (sum (map duration ns) == 0)%Q ->
     exists st' new_note_sequence,
       quantize self note_sequence measure_duration st
       = (st', Ok (Some new_note_sequence)) /\
       notes_of st' (note_list new_note_sequence)
       = Some (map (rescaled (measure_duration / sum (map duration ns))) ns) /\
       notes_of st' (note_list note_sequence) = Some ns).
  { intros self note_sequence measure_duration st ns Hns Hq Hne Hz.
    eexists _, _. split; [by apply quantize_rescaling|]. split.
    - cbn [note_list].
      rewrite <- (length_map (rescaled (measure_duration / sum (map duration ns))) ns).
      apply notes_of_fresh.
    - by apply notes_of_app. }
  split; [exact General|].
  destruct (General example_meter example_sequence 1.0%Q example_store
              example_store eq_refl eq_refl) as (st' & s' & Hrun & Hcopy & _);
    [by vm_compute | by vm_compute |].
  eexists _, _, _. split; [exact Hrun|]. split; [exact Hcopy|].
  split; repeat constructor.
Qed.

(** The example of C3, through the theorem. *)
Lemma quantize_rescales_copy_witness :
  exists st' new_note_sequence,
    quantize example_meter example_sequence 1.0 example_store
    = (st', Ok (Some new_note_sequence)) /\
    notes_of st' (note_list new_note_sequence)
    = Some (map (rescaled (1.0 / sum (map duration example_store))) example_store) /\
    notes_of st' (note_list example_sequence) = Some example_store.
Proof.
  apply (proj1 quantize_rescales_copy example_meter example_sequence 1.0%Q
           example_store example_store).
  - reflexivity.
  - reflexivity.
  - vm_compute. discriminate.
  - vm_compute. discriminate.
Defined.

(** C7.  [quantize] is a no-op when quantizing is disabled and when the
    durations sum to the measure duration: it returns, with the store as it
    was.  The equality is the [==] of the code; a sum that only comes close
    to the measure duration (within a relative tolerance below 1) takes the
    other branch, which raises no error either and changes no note that
    existed: it only adds the notes of a copy to the store. *)
Theorem quantize_no_op self note_sequence measure_duration st ns :
  notes_of st (note_list note_sequence) = Some ns ->
  (quantizing self = false \/ (sum (map duration ns) == measure_duration)%Q ->
   quantize self note_sequence measure_duration st = (st, Ok None)) /\
  (forall eps : Q,
     (0 <= eps)%Q -> (eps < 1)%Q ->
     (Qabs (sum (map duration ns) - measure_duration)
      <= eps * Qabs measure_duration)%Q ->
     exists fresh r,
       quantize self note_sequence measure_duration st = (st ++ fresh, Ok r) /\
       notes_of (st ++ fresh) (note_list note_sequence) = Some ns).
Proof.
  intros Hns.
  assert (Exact : quantizing self = false \/
                  (sum (map duration ns) == measure_duration)%Q ->
                  quantize self note_sequence measure_duration st = (st, Ok None)).
  { intros H. unfold quantize. destruct (quantizing self); [|done].
    destruct H as [H|H]; [done|].
    rewrite (bind_ok _ _ _ _ _ (durations_read _ _ _ Hns)).
    apply Qeq_bool_iff in H. by rewrite H. }
  split; [exact Exact|].
  intros eps Heps0 Heps1 Hclose.
  destruct (Qeq_dec (sum (map duration ns)) measure_duration) as [Heq|Hne].
  { exists [], None. rewrite app_nil_r. split; [apply Exact; by right | done]. }
  destruct (quantizing self) eqn:Hq.
  2:{ exists [], None. rewrite app_nil_r. split; [apply Exact; by left | done]. }
  assert (Hz : ~ (sum (map duration ns) == 0)%Q).
  { intros Hz. apply Hne. rewrite Hz in Hclose |- *.
    assert (Hmd : (Qabs measure_duration <= 0)%Q).
    { assert (Ha : (Qabs (0 - measure_duration) == Qabs measure_duration)%Q).
      { rewrite <- (Qabs_opp measure_duration). apply Qabs_wd. ring. }
      rewrite Ha in Hclose.
      destruct (Qlt_le_dec 0 (Qabs measure_duration)) as [Hpos|]; [|done].
      exfalso. apply (Qlt_irrefl (Qabs measure_duration)).
      eapply Qle_lt_trans; [exact Hclose|].
      rewrite <- (Qmult_1_l (Qabs measure_duration)) at 2.
      by apply Qmult_lt_compat_r. }
    apply Qabs_Qle_condition in Hmd as [Hlo Hhi].
    symmetry. by apply Qle_antisym. }
  eexists _, _. split; [by apply quantize_rescaling|]. by apply notes_of_app.
Qed.

(** C7 on the example sequence: with quantizing off, and with a measure
    duration of 2.0, which its four durations of 0.5 sum to. *)
Lemma quantize_no_op_witness :
  quantize (quantizing_off example_meter) example_sequence 1.0 example_store
  = (example_store, Ok None) /\
  quantize example_meter example_sequence 2.0 example_store
  = (example_store, Ok None).
Proof.
  split.
  - apply (proj1 (quantize_no_op (quantizing_off example_meter) example_sequence
                    1.0%Q example_store example_store eq_refl)).
    left. reflexivity.
  - apply (proj1 (quantize_no_op example_meter example_sequence
                    2.0%Q example_store example_store eq_refl)).
    right. reflexivity.
Defined.

(** C9 (the code at the failing input).  [SIXTEENTH] has the value 0.00625,
    which is 1/160 and none of 1/2^k for k from 0 to 6; so have
    [THIRTYSECOND] and [SIXTYFOURTH] values that are no such fraction. *)
Theorem SIXTEENTH_is_no_power_of_two_fraction :
  (value SIXTEENTH == 1 # 160)%Q /\
  Forall (fun d => Forall (fun k => ~ (value d == pow2_fraction k)%Q)
                          [0; 1; 2; 3; 4; 5; 6])
         [SIXTEENTH; THIRTYSECOND; SIXTYFOURTH].
Proof.
  split; [reflexivity|].
  repeat constructor; by vm_compute.
Qed.

End AleatoricClaims.

(** ** omnisound/note/containers/note_sequence.py *)

Section SequenceFacts.

Import Sequence.

(** The [for] loop that puts the children of the current sequence behind
    it, and the [del] of the current sequence: the children, in their
    order, come before the rest of the queue. *)
Lemma queue_after_children (cur_seq : NoteSequence) children rest :
  drop 1 (fold_left (fun q child_seq => list_insert_at 1 child_seq q)
                    (rev children) (cur_seq :: rest))
  = children ++ rest.
Proof.
  rewrite <- (rev_involutive children) at 2.
  generalize (rev children) as l. intros l.
  assert (H : fold_left (fun q child_seq => list_insert_at 1 child_seq q)
                l (cur_seq :: rest) = cur_seq :: rev l ++ rest).
  { generalize rest. induction l as [|c l IH]; intros rest'; simpl; [done|].
    unfold list_insert_at at 2. simpl. rewrite IH, <- app_assoc. done. }
  by rewrite H.
Qed.

Lemma forest_size_app l1 l2 :
  forest_size (l1 ++ l2) = (forest_size l1 + forest_size l2)%nat.
Proof.
  induction l1 as [|c l1 IH]; simpl; [done|]. rewrite IH. lia.
Qed.

Lemma tree_size_children s children :
  child_sequences s = Some children ->
  tree_size s = S (forest_size children).
Proof.
  destruct s as [na names defaults cs i mi rmi rm]. simpl. intros ->.
  reflexivity.
Qed.

(** The loop of [_update_range_map] ends within as many iterations as the
    queue has sequences. *)
Lemma process_queue_returns fuel queue range_map :
  (forest_size queue <= fuel)%nat ->
  exists r, process_queue fuel queue range_map = Some r.
Proof.
  revert queue range_map. induction fuel as [|fuel IH]; intros queue range_map Hf.
  - destruct queue as [|cur_seq rest]; simpl in *; [by eexists|].
    destruct cur_seq; simpl in Hf; lia.
  - destruct queue as [|cur_seq rest]; simpl; [by eexists|].
    destruct (last_key range_map) as [k|e]; [|by eexists].
    destruct (child_sequences cur_seq) as [children|] eqn:Hc; [|by eexists].
    pose proof (queue_after_children cur_seq children rest) as Hq.
    simpl in Hq. rewrite Hq. apply IH.
    rewrite forest_size_app. simpl in Hf.
    rewrite (tree_size_children _ _ Hc) in Hf. lia.
Qed.

(** [_update_range_map], and with it [__init__], returns or raises. *)
Lemma _update_range_map_returns self :
  exists r, _update_range_map self = Some r.
Proof.
  unfold _update_range_map.
  destruct (child_sequences self) as [[|first_child others]|]; try by eexists.
  destruct (process_queue_returns (forest_size (first_child :: others))
              (first_child :: others)
              [(len (note_attrs self) + __len__ first_child, first_child)])
    as [r ->]; [done|].
  destruct r as [range_map'|e]; [|by eexists].
  destruct (last_key range_map'); by eexists.
Qed.

Lemma len_zero_rows num_notes num_attributes :
  len (zero_rows num_notes num_attributes) = Z.max 0 num_notes.
Proof.
  unfold zero_rows. destruct (Z.to_nat num_notes) as [|n] eqn:Hn; simpl.
  - lia.
  - rewrite repeat_length. lia.
Qed.

End SequenceFacts.

Section SequenceClaims.

Import Sequence.

(** C2 (the code at the failing input).  A sequence built without child
    sequences has length 0 whatever the number of its rows: three rows give
    [len] 0, not 3.  The sequence of the comment in the code, ten rows and
    two children of eleven and twelve rows, has [len] 10 where its rows and
    those of its children are 33. *)
Theorem len_without_children_is_zero :
  (forall num_notes num_attributes names defaults,
     exists s,
       __init__ num_notes num_attributes names defaults None = Some (Ok s) /\
       len (note_attrs s) = Z.max 0 num_notes /\ __len__ s = 0) /\
  (exists s,
     __init__ 3 5 [] None None = Some (Ok s) /\
     len (note_attrs s) = 3 /\ flattened_rows s = 3 /\ __len__ s = 0) /\
  (__init__ 11 5 [] None (Some []) = Some (Ok (leaf 11)) /\
   __init__ 12 5 [] None (Some []) = Some (Ok (leaf 12)) /\
   exists s,
     __init__ 10 5 [] None (Some [leaf 11; leaf 12]) = Some (Ok s) /\
     flattened_rows s = 33 /\ __len__ s = 10).
Proof.
  split; [|split].
  - intros num_notes num_attributes names defaults. eexists. split; [reflexivity|].
    simpl. split; [apply len_zero_rows | reflexivity].
  - eexists. split; [reflexivity|]. by vm_compute.
  - split; [reflexivity|]. split; [reflexivity|].
    eexists. split; [reflexivity|]. by vm_compute.
Qed.

(** C5 (the code at the failing input).  A sequence of one row of five
    attributes rejects a note of five attributes: the shapes compared are
    [(1, 5)] and [(5,)].  An array of rank 2 rejects every note, and no
    call of [append] returns a sequence. *)
Theorem append_rejects_note_of_same_width :
  (exists s,
     __init__ 1 5 [] None None = Some (Ok s) /\
     shape (note_attrs s) = [1; 5]%nat /\
     append s [0; 0; 0; 0; 0]%Q = Raise NoteSequenceInvalidAppendException) /\
  (forall ncols rows names defaults children i mi rmi rm _attrs,
     append (mkNoteSequence (Rows ncols rows) names defaults children i mi rmi rm)
            _attrs
     = Raise NoteSequenceInvalidAppendException) /\
  (forall self _attrs, exists e, append self _attrs = Raise e).
Proof.
  split; [|split].
  - eexists. split; [reflexivity|]. split; reflexivity.
  - intros. unfold append. simpl. rewrite bool_decide_eq_true_2; [done|].
    intros H. discriminate H.
  - intros self _attrs. unfold append. case_bool_decide; by eexists.
Qed.

(** C10.  Indexing raises [ValueError] for every index from [max_index]
    on, and an index below [max_index] that is at least 0 and below the
    number of the sequence's own rows gives the note [note_cls] makes of the
    view of row [index] of the sequence's own array, a row that array has. *)
Theorem getitem_own_rows self index :
  (max_index self <= index -> __getitem__ self index = Raise ValueError) /\
  (0 <= index < len (note_attrs self) -> index < max_index self ->
   (exists row, rows_of (note_attrs self) !! Z.to_nat index = Some row) /\
   __getitem__ self index
   = Ok (Some (note_cls (row_view (note_attrs self) (Z.to_nat index))
                 (attr_name_index_map self) (default_attr_vals_map self)
                 index))).
Proof.
  unfold __getitem__. destruct self as [na names defaults cs i mi rmi rm].
  cbn [_get_note_for_index max_index note_attrs attr_name_index_map
       default_attr_vals_map].
  split.
  - intros H. destruct (index >=? mi) eqn:E; [done|]. lia.
  - intros [H0 Hlen] Hmax.
    destruct (index >=? mi) eqn:E; [lia|].
    destruct (index <? len na) eqn:E'; [|lia].
    unfold getitem.
    destruct (0 <=? index) eqn:E0; [|lia]. rewrite E'. cbn [andb].
    split; [|done].
    apply lookup_lt_is_Some. destruct na as [|ncols rows]; simpl in *; lia.
Qed.

(** C10 on a sequence of two rows with one child: index 2 is out of range,
    and index 1 is the view of row 1. *)
Lemma getitem_own_rows_witness :
  __init__ 2 5 [] None (Some [leaf 3]) = Some (Ok two_rows_one_child) /\
  __getitem__ two_rows_one_child 2 = Raise ValueError /\
  __getitem__ two_rows_one_child 1
  = Ok (Some (note_cls (row_view (note_attrs two_rows_one_child) 1) [] None 1)).
Proof.
  split; [reflexivity|]. split.
  - apply (proj1 (getitem_own_rows two_rows_one_child 2)). by vm_compute.
  - apply (proj2 (getitem_own_rows two_rows_one_child 1)); by vm_compute.
Defined.

End SequenceClaims.

(** ** omnisound/note/containers/measure.py *)

Section MeasureFacts.

Import Measures.

Implicit Types (m : Measure) (note : list Q) (s : Sequence.NoteSequence).

(** No call of the parent's [append] returns. *)
Lemma append_raises s note :
  exists e, Sequence.append s note = Raise e /\
            (e = NoteSequenceInvalidAppendException \/ e = TypeError).
Proof.
  unfold Sequence.append. case_bool_decide; eexists; split; eauto.
Qed.




Lemma append_never_returns as_list fuel m note :
  exists e,
    append as_list fuel note m = Some (m, Raise e) /\
    (e = NoteSequenceInvalidAppendException \/ e = TypeError).
Proof.
  destruct (append_raises (sequence m) note) as (e & He & Hcases).
  exists e. split; [|done]. unfold append.
  apply bindP_raise. unfold ended, super. by rewrite He.
Qed.

End MeasureFacts.

Section MeasureClaims.

Import Measures.

Implicit Types (m : Measure) (note : list Q).







(** C8.  From a beat within [[0, beats_per_measure]], every sequence of
    calls of [increment_beat] and [decrement_beat] returns with the beat
    within these bounds (so it is after each call of the sequence), and with
    nothing else of the measure changed; at [beats_per_measure] an increment
    leaves the measure as it is, and so does a decrement at 0. *)
Theorem beat_stays_in_measure m calls :
  0 <= beat m <= beats_per_measure (meter m) ->
  (exists b,
     for_each call_beat calls m = (set_beat m b, Ok tt) /\
     0 <= b <= beats_per_measure (meter m)) /\
  (beat m = beats_per_measure (meter m) -> increment_beat m = (m, Ok tt)) /\
  (beat m = 0 -> decrement_beat m = (m, Ok tt)).
Proof.
  intros Hb. split; [|split].
  - revert m Hb. induction calls as [|c calls IH]; intros m Hb; simpl.
    + exists (beat m). split; [|done]. by destruct m.
    + assert (Hstep : exists b, call_beat c m = (set_beat m b, Ok tt) /\
                                0 <= b <= beats_per_measure (meter m)).
      { destruct c; eexists; (split; [reflexivity|]); lia. }
      destruct Hstep as (b & Hstep & Hb').
      rewrite (bind_ok _ _ _ _ _ Hstep).
      destruct (IH (set_beat m b) Hb') as (b' & Hrun & Hb'').
      exists b'. by rewrite Hrun.
  - intros E. unfold increment_beat, modify.
    destruct m as [s mt b nns md]. simpl in *. subst b.
    unfold set_beat. simpl. by rewrite Z.min_r by lia.
  - intros E. unfold decrement_beat, modify.
    destruct m as [s mt b nns md]. simpl in *. by subst b.
Qed.

(** C8 on the measure of the tests: two increments and three decrements
    end at 0, and six increments at the four beats of the measure. *)
Lemma beat_stays_in_measure_witness :
  (exists b,
     for_each call_beat [Increment; Increment; Decrement; Decrement; Decrement]
              (example_measure [])
     = (set_beat (example_measure []) b, Ok tt) /\ 0 <= b <= 4) /\
  for_each call_beat (repeat Increment 6) (example_measure [])
  = (set_beat (example_measure []) 4, Ok tt).
Proof.
  split.
  - apply (proj1 (beat_stays_in_measure (example_measure [])
                    [Increment; Increment; Decrement; Decrement; Decrement]
                    ltac:(simpl; lia))).
  - reflexivity.
Defined.

End MeasureClaims.

(** * Further properties of the code *)

(** ** aleatoric/note/adapters/csound_note.py *)

Section AleatoricMore.

Import Aleatoric PrimFloat.

(** X2.  [get_pitch_for_key] accepts the octaves strictly between
    [MIN_OCTAVE] and [MAX_OCTAVE], that is 2 to 11: 1 and 12 raise
    [ValueError] like every octave outside.  For an accepted octave the
    pitch, a floating point number, lies strictly between the octave plus
    1/128 and the octave plus 1/8, whatever the key: its whole part is the
    octave and its hundredths, rounded, run from 01 to 12. *)
Theorem get_pitch_for_key_range k octave :
  (octave <= 1 \/ 12 <= octave -> get_pitch_for_key k octave = Raise ValueError) /\
  (1 < octave < 12 ->
   exists pitch,
     get_pitch_for_key k octave = Ok pitch /\
     PrimFloat.ltb (PrimFloat.add (float_of_int octave) 0.0078125%float) pitch
     = true /\
     PrimFloat.ltb pitch (PrimFloat.add (float_of_int octave) 0.125%float)
     = true).
Proof.
  unfold get_pitch_for_key, MIN_OCTAVE, MAX_OCTAVE. split.
  - intros H. destruct (1 <? octave) eqn:E1, (octave <? 12) eqn:E2; simpl; try done.
    lia.
  - intros H. destruct (1 <? octave) eqn:E1; [|lia].
    destruct (octave <? 12) eqn:E2; [|lia]. simpl.
    eexists. split; [reflexivity|].
    assert (Ho : exists n : nat, (n < 10)%nat /\ octave = 2 + Z.of_nat n).
    { exists (Z.to_nat (octave - 2)). lia. }
    destruct Ho as (n & Hn & ->).
    do 10 (destruct n as [|n];
           [destruct k as [[]|[]]; split; vm_compute; reflexivity|]).
    lia.
Qed.

(** X2 at both bounds, and on the key B in the octave 8, where the sum is
    above 8.12. *)
Lemma get_pitch_for_key_range_witness :
  get_pitch_for_key (major MajorKey.C) 1 = Raise ValueError /\
  get_pitch_for_key (major MajorKey.C) 12 = Raise ValueError /\
  get_pitch_for_key (major MajorKey.B) 8 = Ok 8.120000000000001%float /\
  exists pitch,
    get_pitch_for_key (major MajorKey.B) 8 = Ok pitch /\
    PrimFloat.ltb (PrimFloat.add (float_of_int 8) 0.0078125%float) pitch = true /\
    PrimFloat.ltb pitch (PrimFloat.add (float_of_int 8) 0.125%float) = true.
Proof.
  split; [|split; [|split]].
  - apply (proj1 (get_pitch_for_key_range (major MajorKey.C) 1)). lia.
  - apply (proj1 (get_pitch_for_key_range (major MajorKey.C) 12)). lia.
  - vm_compute. reflexivity.
  - apply (proj2 (get_pitch_for_key_range (major MajorKey.B) 8)). lia.
Defined.

End AleatoricMore.

(** ** omnisound/note/containers/note_sequence.py *)

Section SequenceMore.

Import Sequence.

Lemma listed_children s children :
  child_sequences s = Some children -> listed s = forallb listed children.
Proof.
  destruct s as [na names defaults cs i mi rmi rm]. simpl. by intros ->.
Qed.

Lemma listed_none s : child_sequences s = None -> listed s = false.
Proof.
  destruct s as [na names defaults cs i mi rmi rm]. simpl. by intros ->.
Qed.






(** The keys of a dictionary after [d[k] = v]. *)
Lemma dict_set_keys {V} (d : list (Z * V)) k v :
  map fst (dict_set d k v)
  = if decide (k ∈ map fst d) then map fst d else map fst d ++ [k].
Proof.
  induction d as [|[k' v'] d IH].
  - cbn [dict_set map]. rewrite decide_False; [done|]. apply not_elem_of_nil.
  - cbn [dict_set map fst]. destruct (k' =? k) eqn:E.
    + apply Z.eqb_eq in E. subst k'. cbn [map fst].
      rewrite decide_True; [done|]. by left.
    + apply Z.eqb_neq in E. cbn [map fst]. rewrite IH.
      destruct (decide (k ∈ map fst d)) as [Hin|Hout].
      * rewrite decide_True; [done|]. by right.
      * rewrite decide_False; [done|].
        intros Hin. apply elem_of_cons in Hin as [->|Hin]; done.
Qed.


Lemma ends_at_last_key {V} (d : list (Z * V)) K :
  ends_at d K -> last_key d = Ok K.
Proof. intros [H _]. unfold last_key. by rewrite H. Qed.

Lemma dict_set_ends_at {V} (d : list (Z * V)) K n v :
  ends_at d K -> 0 <= n -> ends_at (dict_set d (K + n) v) (K + n).
Proof.
  intros [Hlast Hmax] Hn. unfold ends_at. rewrite dict_set_keys.
  destruct (decide (K + n ∈ map fst d)) as [Hin|Hout].
  - assert (n = 0) as -> by (apply Hmax in Hin; lia).
    rewrite Z.add_0_r. by split.
  - split; [apply last_snoc|]. intros k Hk.
    apply elem_of_app in Hk as [Hk|Hk].
    + apply Hmax in Hk. lia.
    + apply list_elem_of_singleton in Hk. lia.
Qed.

Lemma lengths_sound_children s children :
  child_sequences s = Some children ->
  lengths_sound s = (0 <=? max_index s) && forallb lengths_sound children.
Proof.
  destruct s as [na names defaults cs i mi rmi rm]. simpl. by intros ->.
Qed.

Lemma tree_len_children s children :
  child_sequences s = Some children ->
  tree_len s = __len__ s + forest_len children.
Proof.
  destruct s as [na names defaults cs i mi rmi rm]. simpl. by intros ->.
Qed.

Lemma forest_len_app l1 l2 :
  forest_len (l1 ++ l2) = forest_len l1 + forest_len l2.
Proof.
  induction l1 as [|c l1 IH]; simpl; [done|]. rewrite IH. lia.
Qed.

(** Each sequence the loop visits moves the last key of the range map up
    by its length. *)
Lemma process_queue_ends_at fuel :
  forall queue range_map K,
    (forest_size queue <= fuel)%nat ->
    forallb listed queue = true -> forallb lengths_sound queue = true ->
    ends_at range_map K ->
    exists range_map',
      process_queue fuel queue range_map = Some (Ok range_map') /\
      ends_at range_map' (K + forest_len queue).
Proof.
  induction fuel as [|fuel IH]; intros queue range_map K Hf Hl Hs Hend.
  - destruct queue as [|cur_seq rest]; simpl in *.
    + eexists. split; [done|]. by rewrite Z.add_0_r.
    + destruct cur_seq; simpl in Hf; lia.
  - destruct queue as [|cur_seq rest]; simpl.
    { eexists. split; [done|]. by rewrite Z.add_0_r. }
    rewrite (ends_at_last_key _ _ Hend).
    simpl in Hl, Hs. apply andb_prop in Hl as [Hl1 Hl2].
    apply andb_prop in Hs as [Hs1 Hs2].
    destruct (child_sequences cur_seq) as [children|] eqn:Hc;
      [|by rewrite (listed_none _ Hc) in Hl1].
    rewrite (listed_children _ _ Hc) in Hl1.
    rewrite (lengths_sound_children _ _ Hc) in Hs1.
    apply andb_prop in Hs1 as [Hnn Hs1]. apply Z.leb_le in Hnn.
    pose proof (queue_after_children cur_seq children rest) as Hq.
    simpl in Hq. rewrite Hq.
    destruct (IH (children ++ rest)
                (dict_set range_map (K + __len__ cur_seq) cur_seq)
                (K + __len__ cur_seq)) as (range_map' & Hrun & Hend').
    + rewrite forest_size_app. simpl in Hf.
      rewrite (tree_size_children _ _ Hc) in Hf. lia.
    + rewrite forallb_app. by rewrite Hl1, Hl2.
    + rewrite forallb_app. by rewrite Hs1, Hs2.
    + by apply dict_set_ends_at.
    + exists range_map'. split; [done|].
      rewrite forest_len_app in Hend'.
      rewrite (tree_len_children _ _ Hc).
      replace (K + (__len__ cur_seq + forest_len children + forest_len rest))
        with (K + __len__ cur_seq + (forest_len children + forest_len rest))
        by lia.
      exact Hend'.
Qed.

(** X5.  What [len] is for a sequence with child sequences: the number of
    its own rows, the length of its first child, and on top the lengths of
    all the sequences below it, the first child once more among them. *)
Theorem len_with_children num_notes num_attributes names defaults
    first_child others :
  forallb listed (first_child :: others) = true ->
  forallb lengths_sound (first_child :: others) = true ->
  exists s,
    __init__ num_notes num_attributes names defaults
             (Some (first_child :: others)) = Some (Ok s) /\
    __len__ s = Z.max 0 num_notes + __len__ first_child
                + forest_len (first_child :: others).
Proof.
  intros Hl Hs. unfold __init__, _update_range_map.
  cbn [child_sequences note_attrs].
  destruct (process_queue_ends_at (forest_size (first_child :: others))
              (first_child :: others)
              [(len (zero_rows num_notes num_attributes) + __len__ first_child,
                first_child)]
              (len (zero_rows num_notes num_attributes) + __len__ first_child))
    as (range_map' & -> & Hend); [done..| |].
  { split; [done|]. intros k Hk. cbn [map fst] in Hk.
    apply list_elem_of_singleton in Hk. subst k. reflexivity. }
  rewrite (ends_at_last_key _ _ Hend). eexists. split; [done|].
  unfold __len__ at 1. cbn [max_index]. by rewrite len_zero_rows.
Qed.

(** X5 on a sequence of one row over a child of ten rows that has two
    childless children of eleven and twelve rows: 34 rows, and [len] 21. *)
Lemma len_with_children_witness :
  exists child s,
    __init__ 10 5 [] None (Some [leaf 11; leaf 12]) = Some (Ok child) /\
    __len__ child = 10 /\
    __init__ 1 5 [] None (Some [child]) = Some (Ok s) /\
    flattened_rows s = 34 /\ __len__ s = 1 + 10 + (10 + 0 + 0).
Proof.
  eexists. 
  destruct (len_with_children 1 5 [] None
              (mkNoteSequence (zero_rows 10 5) [] None (Some [leaf 11; leaf 12])
                              0 10 0 (Some [(10, leaf 12)])) [])
    as (s & Hrun & Hlen); [reflexivity..|].
  exists s. split; [reflexivity|]. split; [reflexivity|].
  split; [exact Hrun|]. split; [|exact Hlen].
  vm_compute in Hrun. inversion Hrun. reflexivity.
Defined.

Lemma getitem_past_len self index :
  __len__ self <= index -> __getitem__ self index = Raise ValueError.
Proof.
  unfold __getitem__, __len__. destruct self as [na names defaults cs i mi rmi rm].
  cbn [_get_note_for_index max_index]. intros H.
  destruct (index >=? mi) eqn:E; [done|]. lia.
Qed.

(** X6.  [extend] raises unless the two arrays have the same shape, the
    same number of rows included.  When they have, the rows of the other
    sequence follow the rows of this one, but [len] stays what it was, and
    indexing still raises [ValueError] from the old [len] on. *)
Theorem extend_needs_equal_shapes self note_sequence :
  (shape (note_attrs self) <> shape (note_attrs note_sequence) ->
   extend self note_sequence = Raise NoteSequenceInvalidAppendException) /\
  (shape (note_attrs self) = shape (note_attrs note_sequence) ->
   exists s',
     extend self note_sequence = Ok s' /\
     rows_of (note_attrs s')
     = rows_of (note_attrs self) ++ rows_of (note_attrs note_sequence) /\
     __len__ s' = __len__ self /\
     forall index, __len__ self <= index -> __getitem__ s' index = Raise ValueError).
Proof.
  unfold extend. split.
  - intros H. by rewrite bool_decide_eq_true_2.
  - intros H. rewrite bool_decide_eq_false_2 by (intros Hn; by apply Hn).
    destruct (note_attrs self) as [|c rows] eqn:Ea,
             (note_attrs note_sequence) as [|c' rows'] eqn:Eb;
      simpl in H; try discriminate.
    + eexists. split; [reflexivity|]. cbn [set_note_attrs note_attrs rows_of].
      split; [done|]. split; [done|]. intros index Hi.
      by apply getitem_past_len.
    + inversion H as [[Hlen Hc]]. subst c'. simpl. rewrite decide_True by done.
      eexists. split; [reflexivity|]. cbn [set_note_attrs note_attrs rows_of].
      split; [done|]. split; [done|]. intros index Hi.
      by apply getitem_past_len.
Qed.

(** X6 on childless sequences: one of two rows takes another of two rows
    and has four rows with [len] 0, and refuses one of three rows. *)
Lemma extend_needs_equal_shapes_witness :
  extend (leaf 2) (leaf 3) = Raise NoteSequenceInvalidAppendException /\
  exists s',
    extend (leaf 2) (leaf 2) = Ok s' /\
    length (rows_of (note_attrs s')) = 4%nat /\ __len__ s' = 0 /\
    __getitem__ s' 0 = Raise ValueError.
Proof.
  split.
  - apply (proj1 (extend_needs_equal_shapes (leaf 2) (leaf 3))). by vm_compute.
  - destruct (proj2 (extend_needs_equal_shapes (leaf 2) (leaf 2)) eq_refl)
      as (s' & Hrun & Hrows & Hlen & Hget).
    exists s'. split; [exact Hrun|]. split; [by rewrite Hrows|].
    split; [exact Hlen|]. apply Hget. by vm_compute.
Defined.

(** X7.  [append_child_sequence] adds the child to the list of child
    sequences and nothing more: [len] and indexing are what they were, so no
    note of the child can be reached.  A sequence built without a list of
    child sequences raises [AttributeError]. *)
Theorem append_child_sequence_is_not_indexed self child_sequence :
  (child_sequences self = None ->
   append_child_sequence self child_sequence = Raise AttributeError) /\
  (forall children,
     child_sequences self = Some children ->
     exists s',
       append_child_sequence self child_sequence = Ok s' /\
       child_sequences s' = Some (children ++ [child_sequence]) /\
       __len__ s' = __len__ self /\
       forall index, __getitem__ s' index = __getitem__ self index).
Proof.
  unfold append_child_sequence. split.
  - by intros ->.
  - intros children ->. eexists. split; [reflexivity|].
    split; [done|]. split; [done|]. intros index.
    by destruct self.
Qed.

Lemma append_child_sequence_is_not_indexed_witness :
  exists s',
    append_child_sequence (leaf 2) (leaf 3) = Ok s' /\
    child_sequences s' = Some ([] ++ [leaf 3]) /\
    __len__ s' = __len__ (leaf 2) /\
    forall index, __getitem__ s' index = __getitem__ (leaf 2) index.
Proof.
  apply (proj2 (append_child_sequence_is_not_indexed (leaf 2) (leaf 3)) []).
  reflexivity.
Defined.

(** X8.  The range check of indexing lets every negative index through:
    one that counts from the end of the own rows gives the view of that
    row, also where [len] is 0 and every index from 0 on raises; one further
    back raises [IndexError]. *)
Theorem getitem_negative_index self index :
  0 <= max_index self ->
  (- len (note_attrs self) <= index < 0 ->
   __getitem__ self index
   = Ok (Some (note_cls (row_view (note_attrs self)
                                  (Z.to_nat (len (note_attrs self) + index)))
                 (attr_name_index_map self) (default_attr_vals_map self)
                 index))) /\
  (index < - len (note_attrs self) -> __getitem__ self index = Raise IndexError).
Proof.
  unfold __getitem__. destruct self as [na names defaults cs i mi rmi rm].
  cbn [_get_note_for_index max_index note_attrs attr_name_index_map
       default_attr_vals_map].
  intros Hmax.
  assert (Hlen : 0 <= len na) by (destruct na; simpl; lia).
  split; intros H.
  - destruct (index >=? mi) eqn:E; [lia|].
    destruct (index <? len na) eqn:E'; [|lia]. unfold getitem.
    destruct (0 <=? index) eqn:E0; [lia|]. cbn [andb].
    destruct (- len na <=? index) eqn:E1; [|lia]. rewrite Z.ltb_lt in E'.
    destruct (index <? 0) eqn:E2; [done|lia].
  - destruct (index >=? mi) eqn:E; [lia|].
    destruct (index <? len na) eqn:E'; [|lia]. unfold getitem.
    destruct (0 <=? index) eqn:E0; [lia|]. cbn [andb].
    destruct (- len na <=? index) eqn:E1; [lia|]. done.
Qed.

(** X8 on a childless sequence of three rows. *)
Lemma getitem_negative_index_witness :
  __getitem__ (leaf 3) 0 = Raise ValueError /\
  __getitem__ (leaf 3) (-1)
  = Ok (Some (note_cls (row_view (note_attrs (leaf 3)) 2) [] None (-1))) /\
  __getitem__ (leaf 3) (-4) = Raise IndexError.
Proof.
  split; [reflexivity|]. split.
  - apply (proj1 (getitem_negative_index (leaf 3) (-1) ltac:(simpl; lia))).
    by vm_compute.
  - apply (proj2 (getitem_negative_index (leaf 3) (-4) ltac:(simpl; lia))).
    by vm_compute.
Defined.


Lemma next_yields self (i : nat) :
  Z.of_nat i < max_index self -> Z.of_nat i < len (note_attrs self) ->
  __next__ (set_index self (Z.of_nat i))
  = (set_index self (Z.of_nat (S i)), Yield (Some (own_note self i))).
Proof.
  intros Hmax Hlen. unfold __next__, set_index, own_note.
  destruct self as [na names defaults cs ix mi rmi rm].
  cbn [index max_index _get_note_for_index note_attrs attr_name_index_map
       default_attr_vals_map child_sequences _range_map_index _range_map] in *.
  destruct (Z.of_nat i =? mi) eqn:E; [lia|].
  destruct (Z.of_nat i >=? mi) eqn:E1; [lia|].
  destruct (Z.of_nat i <? len na) eqn:E2; [|lia].
  unfold getitem. destruct (0 <=? Z.of_nat i) eqn:E3; [|lia]. rewrite E2.
  cbn [andb]. rewrite Nat2Z.id. do 3 f_equal. lia.
Qed.

Lemma next_stops self :
  __next__ (set_index self (max_index self))
  = (set_index self (max_index self), StopIteration).
Proof.
  unfold __next__, set_index. destruct self. cbn [index max_index].
  by rewrite Z.eqb_refl.
Qed.

Lemma next_until_stop_from self (k : nat) :
  forall (i fuel : nat),
    Z.of_nat (i + k) = max_index self ->
    max_index self <= len (note_attrs self) ->
    (k < fuel)%nat ->
    next_until_stop fuel (set_index self (Z.of_nat i))
    = Some (set_index self (max_index self),
            Ok (map (fun j => Some (own_note self j)) (seq i k))).
Proof.
  induction k as [|k IH]; intros i fuel Hmax Hlen Hfuel.
  - destruct fuel as [|fuel]; [lia|]. cbn [next_until_stop seq map].
    rewrite Nat.add_0_r in Hmax. rewrite Hmax. by rewrite next_stops.
  - destruct fuel as [|fuel]; [lia|]. cbn [next_until_stop seq map].
    rewrite next_yields by lia.
    by rewrite (IH (S i) fuel) by lia.
Qed.

(** X9.  Iterating a sequence whose [len] does not go beyond its own rows
    gives the notes of the rows 0 to [len - 1] in order and leaves the
    position at [len]; the iteration sets the position back to 0 when it
    starts, so iterating again gives the same notes. *)
Theorem for_in_own_rows self (fuel : nat) :
  0 <= max_index self <= len (note_attrs self) ->
  (Z.to_nat (max_index self) < fuel)%nat ->
  let notes := map (fun j => Some (own_note self j))
                   (seq 0 (Z.to_nat (max_index self))) in
  for_in fuel self = Some (set_index self (max_index self), Ok notes) /\
  for_in fuel (set_index self (max_index self))
  = Some (set_index self (max_index self), Ok notes).
Proof.
  intros [H0 Hlen] Hfuel notes.
  assert (Hrun : forall ix, for_in fuel (set_index self ix)
                            = Some (set_index self (max_index self), Ok notes)).
  { intros ix. unfold for_in, __iter__.
    replace (set_index (set_index self ix) 0) with (set_index self (Z.of_nat 0))
      by by destruct self.
    apply next_until_stop_from; [|done..]. simpl. lia. }
  split; [|apply Hrun].
  rewrite <- (Hrun (index self)). by destruct self.
Qed.

(** X9 on the sequence of two rows with a childless child: [len] is 2. *)
Lemma for_in_own_rows_witness :
  for_in 3 two_rows_one_child
  = Some (set_index two_rows_one_child 2,
          Ok [Some (own_note two_rows_one_child 0);
              Some (own_note two_rows_one_child 1)]).
Proof.
  apply (for_in_own_rows two_rows_one_child 3).
  - by vm_compute.
  - simpl. lia.
Defined.

Lemma getitem_own_note self (i : nat) :
  Z.of_nat i < max_index self -> Z.of_nat i < len (note_attrs self) ->
  __getitem__ self (Z.of_nat i) = Ok (Some (own_note self i)).
Proof.
  intros Hmax Hlen. unfold __getitem__, own_note.
  destruct self as [na names defaults cs ix mi rmi rm].
  cbn [index max_index _get_note_for_index note_attrs attr_name_index_map
       default_attr_vals_map child_sequences _range_map_index _range_map] in *.
  destruct (Z.of_nat i >=? mi) eqn:E1; [lia|].
  destruct (Z.of_nat i <? len na) eqn:E2; [|lia].
  unfold getitem. destruct (0 <=? Z.of_nat i) eqn:E3; [|lia]. rewrite E2.
  cbn [andb]. by rewrite Nat2Z.id.
Qed.

(** X10.  [make_notes] gives a note for every own row, whatever [len] is,
    and where indexing accepts the index of an own row it returns the note
    [make_notes] has at that index. *)
Theorem make_notes_agrees_with_getitem self :
  Z.of_nat (length (make_notes self)) = len (note_attrs self) /\
  forall i : nat,
    Z.of_nat i < len (note_attrs self) -> Z.of_nat i < max_index self ->
    __getitem__ self (Z.of_nat i) = Ok (make_notes self !! i).
Proof.
  split.
  - unfold make_notes. rewrite length_imap. by destruct (note_attrs self).
  - intros i Hlen Hmax. rewrite getitem_own_note by done.
    unfold make_notes. rewrite list_lookup_imap.
    destruct (rows_of (note_attrs self) !! i) as [row|] eqn:Hrow; [done|].
    apply lookup_ge_None_1 in Hrow.
    destruct (note_attrs self); simpl in *; lia.
Qed.

(** X10 on the sequence of two rows with a childless child. *)
Lemma make_notes_agrees_with_getitem_witness :
  __getitem__ two_rows_one_child 1 = Ok (make_notes two_rows_one_child !! 1%nat).
Proof.
  apply (proj2 (make_notes_agrees_with_getitem two_rows_one_child) 1%nat);
    by vm_compute.
Defined.

End SequenceMore.

(** ** omnisound/note/containers/measure.py *)

Section MeasureMore.

Import Measures.

Implicit Types (m : Measure) (note : list Q).

Lemma list_getitem_past {S A} (l : list A) (i : Z) (s : S) :
  Z.of_nat (length l) <= i -> list_getitem l i s = (s, Raise IndexError).
Proof.
  intros Hi. unfold list_getitem.
  destruct (0 <=? i) eqn:E; [|lia].
  by rewrite (lookup_ge_None_2 l (Z.to_nat i)) by lia.
Qed.

Lemma list_getitem_at {S A} (l : list A) (i : Z) x (s : S) :
  0 <= i -> l !! Z.to_nat i = Some x -> list_getitem l i s = (s, Ok x).
Proof.
  intros Hi Hx. unfold list_getitem.
  destruct (0 <=? i) eqn:E; [|lia]. by rewrite Hx.
Qed.

(** X12.  No call of [add_note_on_beat] returns.  With the beat at or
    past the number of beat start times, where [increment_beat] stops, it
    raises [IndexError] and leaves the measure and the note as they were.
    With the beat on one of the beat start times the note gets that time for
    its start, and then the call of [append] raises: no row is added to the
    measure and the beat stays, whatever [increment_beat] is. *)
Theorem add_note_on_beat_never_appends as_list fuel m note increment_beat' :
  (Z.of_nat (length (beat_start_times_secs (meter m))) <= beat m ->
   add_note_on_beat as_list fuel increment_beat' (m, note)
   = Some ((m, note), Raise IndexError)) /\
  (forall start,
     0 <= beat m ->
     beat_start_times_secs (meter m) !! Z.to_nat (beat m) = Some start ->
     (START < length note)%nat ->
     exists e,
       add_note_on_beat as_list fuel increment_beat' (m, note)
       = Some ((m, <[START := start]> note), Raise e) /\
       (e = NoteSequenceInvalidAppendException \/ e = TypeError)).
Proof.
  unfold add_note_on_beat.
  rewrite (bindP_ok _ _ (m, note) (m, note) m) by done.
  split.
  - intros Hpast. apply bindP_raise. unfold ended.
    by rewrite list_getitem_past.
  - intros start Hb Hstart Hcol.
    rewrite (bindP_ok _ _ (m, note) (m, note) start)
      by (unfold ended; by rewrite (list_getitem_at _ _ start)).
    destruct (lookup_lt_is_Some_2 note START Hcol) as [old Hold].
    set (note' := <[START := start]> note).
    rewrite (bindP_ok _ _ (m, note) (m, note') tt)
      by (unfold ended, on_arg, setattr; simpl; by rewrite Hold).
    rewrite (bindP_ok _ _ (m, note') (m, note') note') by done.
    destruct (append_never_returns as_list fuel m note') as (e & He & Hcases).
    exists e. split; [|done].
    apply bindP_raise. unfold on_selfP. simpl. by rewrite He.
Qed.

(** X12 on the measure of the tests: with the beat at 4, where four
    increments leave it, the call raises [IndexError]; with the beat at 1
    the note gets the start 0.25 and [append] raises. *)
Lemma add_note_on_beat_never_appends_witness :
  add_note_on_beat no_as_list 1 true
    (set_beat (example_measure []) 4, example_note 0.9)
  = Some ((set_beat (example_measure []) 4, example_note 0.9), Raise IndexError) /\
  add_note_on_beat no_as_list 1 true
    (set_beat (example_measure [0.5]%Q) 1, example_note 0.9)
  = Some ((set_beat (example_measure [0.5]%Q) 1, example_note 0.25),
          Raise NoteSequenceInvalidAppendException).
Proof.
  split.
  - apply (proj1 (add_note_on_beat_never_appends no_as_list 1 _ _ true)).
    by vm_compute.
  - assert (Hb : 0 <= beat (set_beat (example_measure [0.5]%Q) 1)) by by vm_compute.
    destruct (proj2 (add_note_on_beat_never_appends no_as_list 1
                       (set_beat (example_measure [0.5]%Q) 1)
                       (example_note 0.9) true) 0.25%Q Hb eq_refl)
      as (e & Hrun & _); [simpl; unfold START; lia|].
    rewrite Hrun. vm_compute in Hrun. by inversion Hrun.
Defined.

Lemma for_each_app {S A} (body : A -> M S unit) l1 l2 s s1 :
  for_each body l1 s = (s1, Ok tt) ->
  for_each body (l1 ++ l2) s = for_each body l2 s1.
Proof.
  revert s. induction l1 as [|x l1 IH]; intros s H; simpl in *.
  - by inversion H.
  - unfold bind in *. destruct (body x s) as [s' [[]|e]]; [|done]. by apply IH.
Qed.

Lemma set_beat_beat m : set_beat m (beat m) = m.
Proof. by destruct m. Qed.

Lemma increments m (k : nat) :
  beat m <= beats_per_measure (meter m) ->
  for_each call_beat (repeat Increment k) m
  = (set_beat m (Z.min (beat m + Z.of_nat k) (beats_per_measure (meter m))), Ok tt).
Proof.
  revert m. induction k as [|k IH]; intros m Hb.
  - simpl. unfold ret. rewrite Z.add_0_r, Z.min_l by lia. by rewrite set_beat_beat.
  - cbn [repeat for_each call_beat].
    rewrite (bind_ok _ _ m
               (set_beat m (Z.min (beat m + 1) (beats_per_measure (meter m)))) tt)
      by done.
    rewrite IH by (simpl; lia). simpl. unfold set_beat. simpl. do 2 f_equal. lia.
Qed.

Lemma decrements m (k : nat) :
  0 <= beat m ->
  for_each call_beat (repeat Decrement k) m
  = (set_beat m (Z.max 0 (beat m - Z.of_nat k)), Ok tt).
Proof.
  revert m. induction k as [|k IH]; intros m Hb.
  - simpl. unfold ret. rewrite Z.sub_0_r, Z.max_r by lia. by rewrite set_beat_beat.
  - cbn [repeat for_each call_beat].
    rewrite (bind_ok _ _ m (set_beat m (Z.max 0 (beat m - 1))) tt) by done.
    rewrite IH by (simpl; lia). simpl. unfold set_beat. simpl. do 2 f_equal. lia.
Qed.

(** X14.  From a beat within the measure, [k] calls of [increment_beat]
    leave the beat at [min (beat + k) beats_per_measure] and [k] calls of
    [decrement_beat] at [max 0 (beat - k)]; [k] increments that stay within
    the measure are undone by [k] decrements, and from the last beat an
    increment and a decrement are. *)
Theorem beat_after_calls m (k : nat) :
  0 <= beat m <= beats_per_measure (meter m) ->
  for_each call_beat (repeat Increment k) m
  = (set_beat m (Z.min (beat m + Z.of_nat k) (beats_per_measure (meter m))), Ok tt) /\
  for_each call_beat (repeat Decrement k) m
  = (set_beat m (Z.max 0 (beat m - Z.of_nat k)), Ok tt) /\
  (beat m + Z.of_nat k <= beats_per_measure (meter m) ->
   for_each call_beat (repeat Increment k ++ repeat Decrement k) m = (m, Ok tt)) /\
  (0 < beat m -> beat m = beats_per_measure (meter m) ->
   for_each call_beat [Increment; Decrement] m = (set_beat m (beat m - 1), Ok tt)).
Proof.
  intros Hb. split; [apply increments; lia|]. split; [apply decrements; lia|].
  split.
  - intros Hk. rewrite (for_each_app _ _ _ _ _ (increments m k ltac:(lia))).
    rewrite decrements by (simpl; lia). simpl. unfold set_beat. simpl.
    rewrite Z.min_l, Z.max_r by lia.
    replace (beat m + Z.of_nat k - Z.of_nat k) with (beat m) by lia.
    by destruct m.
  - intros Hpos Hlast. simpl. unfold bind, increment_beat, decrement_beat, modify, ret.
    unfold set_beat. simpl. do 2 f_equal. lia.
Qed.

(** X14 on the measure of the tests, with four beats. *)
Lemma beat_after_calls_witness :
  for_each call_beat (repeat Increment 6) (example_measure [])
  = (set_beat (example_measure []) 4, Ok tt) /\
  for_each call_beat (repeat Increment 3 ++ repeat Decrement 3) (example_measure [])
  = (example_measure [], Ok tt).
Proof.
  destruct (beat_after_calls (example_measure []) 6 ltac:(simpl; lia))
    as (Hinc & _).
  destruct (beat_after_calls (example_measure []) 3 ltac:(simpl; lia))
    as (_ & _ & Hround & _).
  split; [exact Hinc | apply Hround; simpl; lia].
Defined.

End MeasureMore.

(** ** The hooks of a player *)

Section PlayerMore.

Import Players.

Implicit Types (r : registry) (d : list (string * hook)) (l : list hook).

Lemma dict_get_set d name hook' : dict_get (dict_set d name hook') name = Some hook'.
Proof.
  induction d as [|[k v] d IH]; simpl.
  - by rewrite String.eqb_refl.
  - destruct (String.eqb k name) eqn:E; simpl; by rewrite E.
Qed.

Lemma dict_del_set d name hook' :
  dict_get d name = None -> dict_del (dict_set d name hook') name = d.
Proof.
  induction d as [|[k v] d IH]; simpl; intros H.
  - by rewrite String.eqb_refl.
  - destruct (String.eqb k name) eqn:E; [done|]. simpl. rewrite E. by rewrite IH.
Qed.

Lemma dict_set_set d name h1 h2 :
  dict_set (dict_set d name h1) name h2 = dict_set d name h2.
Proof.
  induction d as [|[k v] d IH]; simpl.
  - by rewrite String.eqb_refl.
  - destruct (String.eqb k name) eqn:E; simpl; rewrite E; [done|]. by rewrite IH.
Qed.

Lemma dict_get_del d name : dict_get d name = None -> dict_get (dict_del d name) name = None.
Proof.
  induction d as [|[k v] d IH]; simpl; [done|].
  destruct (String.eqb k name) eqn:E; [done|]. simpl. by rewrite E.
Qed.

Lemma list_remove_last l hook' :
  hook' ∉ l -> list_remove hook' (l ++ [hook']) = Ok l.
Proof.
  induction l as [|y l IH]; simpl; intros H.
  - by rewrite decide_True.
  - apply not_elem_of_cons in H as [Hne Hl].
    rewrite decide_False by done. by rewrite IH.
Qed.

Lemma list_remove_middle l l' hook' :
  hook' ∉ l -> list_remove hook' (l ++ hook' :: l') = Ok (l ++ l').
Proof.
  induction l as [|y l IH]; simpl; intros H.
  - by rewrite decide_True.
  - apply not_elem_of_cons in H as [Hne Hl].
    rewrite decide_False by done. by rewrite IH.
Qed.

Lemma add_hook_returns name hook' r :
  valid name hook' ->
  _add_hook name hook' r
  = (mk_registry (dict_set (hooks r) name hook') (hooks_list r ++ [hook']), Ok tt).
Proof.
  intros (Hname & Ht & Hc). unfold _add_hook. rewrite Ht, Hc.
  apply String.eqb_neq in Hname. by rewrite Hname.
Qed.

(** X16.  [_add_hook] raises [ValueError] for the empty name, for a hook
    that is false and for one that is not callable, and registers nothing
    then; [_remove_hook] of a name that is not registered returns and
    removes nothing.  A hook registered under a new name, and not in the
    list already, is taken out of the [dict] and of the list again by
    [_remove_hook]: both are as they were. *)
Theorem add_then_remove_hook name hook' r :
  (~ valid name hook' -> _add_hook name hook' r = (r, Raise ValueError)) /\
  (name <> EmptyString -> dict_get (hooks r) name = None ->
   _remove_hook name r = (r, Ok tt)) /\
  (valid name hook' -> dict_get (hooks r) name = None ->
   hook' ∉ hooks_list r ->
   bind (_add_hook name hook') (fun _ => _remove_hook name) r = (r, Ok tt)).
Proof.
  split; [|split].
  - intros Hinvalid. unfold _add_hook.
    destruct (String.eqb name EmptyString) eqn:En; [done|].
    destruct (truthy hook') eqn:Ht; [|done].
    destruct (callable hook') eqn:Hc; [|done].
    destruct Hinvalid. split; [by apply String.eqb_neq|done].
  - intros Hname Hnew. unfold _remove_hook.
    apply String.eqb_neq in Hname. by rewrite Hname, Hnew.
  - intros Hvalid Hnew Hfresh.
    rewrite (bind_ok _ _ _ _ _ (add_hook_returns name hook' r Hvalid)).
    destruct Hvalid as (Hname & Ht & Hc). unfold _remove_hook. simpl.
    apply String.eqb_neq in Hname. rewrite Hname, dict_get_set, Ht.
    rewrite (list_remove_last _ _ Hfresh), (dict_del_set _ _ _ Hnew).
    by destruct r.
Qed.

Lemma add_then_remove_hook_witness :
  let f := mk_hook 1 true true in
  let r := mk_registry [("log"%string, mk_hook 0 true true)] [mk_hook 0 true true] in
  _add_hook "tune"%string (mk_hook 2 true false) r = (r, Raise ValueError) /\
  _remove_hook "tune"%string r = (r, Ok tt) /\
  bind (_add_hook "tune"%string f) (fun _ => _remove_hook "tune"%string) r = (r, Ok tt).
Proof.
  intros f r.
  destruct (add_then_remove_hook "tune"%string (mk_hook 2 true false) r)
    as (Hbad & _ & _).
  destruct (add_then_remove_hook "tune"%string f r) as (_ & Hnone & Hround).
  split; [|split].
  - apply Hbad. by intros (_ & _ & [=]).
  - by apply Hnone.
  - apply Hround; [done | done |].
    apply not_elem_of_cons. split; [done|]. apply not_elem_of_nil.
Defined.

(** X17.  A name registered a second time, with another hook, keeps the
    first hook in the list: [_remove_hook] of the name then takes only the
    second hook out, the name is registered no more, and no further
    [_remove_hook] of the name takes the first hook out of the list. *)
Theorem replaced_hook_stays_listed name h1 h2 r :
  valid name h1 -> valid name h2 -> h1 <> h2 ->
  dict_get (hooks r) name = None -> h2 ∉ hooks_list r ->
  let r' := mk_registry (hooks r) (hooks_list r ++ [h1]) in
  bind (_add_hook name h1)
       (fun _ => bind (_add_hook name h2) (fun _ => _remove_hook name)) r
  = (r', Ok tt) /\
  _remove_hook name r' = (r', Ok tt).
Proof.
  intros Hv1 Hv2 Hne Hnew Hfresh r'. split.
  - rewrite (bind_ok _ _ _ _ _ (add_hook_returns name h1 r Hv1)).
    rewrite (bind_ok _ _ _ _ _ (add_hook_returns name h2 _ Hv2)).
    destruct Hv2 as (Hname & Ht & Hc). unfold _remove_hook. simpl.
    apply String.eqb_neq in Hname. rewrite Hname, dict_set_set, dict_get_set, Ht.
    rewrite list_remove_last.
    + by rewrite (dict_del_set _ _ _ Hnew).
    + rewrite not_elem_of_app. split; [done|].
      apply not_elem_of_cons. split; [done|]. apply not_elem_of_nil.
  - destruct Hv1 as (Hname & _). unfold _remove_hook, r'. simpl.
    apply String.eqb_neq in Hname. by rewrite Hname, Hnew.
Qed.

Lemma replaced_hook_stays_listed_witness :
  let f := mk_hook 1 true true in
  let g := mk_hook 2 true true in
  bind (_add_hook "tune"%string f)
       (fun _ => bind (_add_hook "tune"%string g)
                      (fun _ => _remove_hook "tune"%string))
       (mk_registry [] [])
  = (mk_registry [] [f], Ok tt).
Proof.
  intros f g.
  apply (replaced_hook_stays_listed "tune"%string f g (mk_registry [] []));
    try done.
  apply not_elem_of_nil.
Defined.

End PlayerMore.
